(** * jsx-wrap-multilines: missing parentheses around multiline JSX

    A shallow embedding of [lib/rules/jsx-wrap-multilines.js] and the
    properties its specification states about it.

    The rule is a closure over the host's [context]: it reads
    [context.options] and [context.getSourceCode()], and its only effect is
    [context.report].  The embedding threads the list of reports through a
    small state-and-error monad; the error is the [TypeError] JavaScript
    raises when a property of [null] or [undefined] is read. *)

From Stdlib Require Import Ascii.
From stdpp Require Import base numbers strings gmap option list.

Local Open Scope string_scope.
Local Open Scope nat_scope.
Local Open Scope list_scope.

(** ** JavaScript values

    Only what the rule can observe of a value: which primitive it is, and
    whether it is truthy.  Objects are opaque. *)

Inductive JSValue : Type :=
| VUndefined
| VNull
| VBool (b : bool)
| VNum (n : Z)
| VStr (s : string)
| VObject.

(** ToBoolean, as [!v] and [v && w] apply it. *)
Definition truthy (v : JSValue) : bool :=
  match v with
  | VUndefined | VNull => false
  | VBool b => b
  | VNum n => negb (n =? 0)%Z
  | VStr s => negb (bool_decide (s = ""))
  | VObject => true
  end.

(** ** The syntax tree, as the rule reads it

    Nodes are duck-typed objects: a type tag, a range of offsets, a location
    and whichever child properties the node kind carries.  A property that is
    [null] or missing is [None]. *)

Record Position := { line : nat; column : nat }.

Record SourceLocation := { start : Position; end_ : Position }.

#[warnings="-register-all"]
Inductive Node : Type := MkNode {
  type : string;
  range : nat * nat;
  loc : SourceLocation;
  init : option Node;
  right : option Node;
  argument : option Node;
  body : option Node;
  consequent : option Node;
  alternate : option Node;
  expression : option Node;
  value : option Node
}.

Module Token.
Record t := mk { value : string; range : nat * nat }.
End Token.

(** ** The host interfaces the rule consumes *)

(** [context.getSourceCode()]: the three queries the rule makes. *)
Record SourceCode := {
  getTokenBefore : Node → option Token.t;
  getTokenAfter : Node → option Token.t;
  getText : Node → string
}.

(** A text edit, and the [fixer] helper handed to a report's [fix]. *)
Record Fix := { fix_range : nat * nat; fix_text : string }.

Record Fixer := { replaceText : Node → string → Fix }.

(** The descriptor passed to [context.report]; [fix] is optional there. *)
Record Violation := {
  v_node : Node;
  v_message : string;
  v_fix : option (Fixer → Fix)
}.

(** [context]: [options] is the array of rule options, [options[0]] the
    user's object when there is one. *)
Record Context := {
  options : list (gmap string JSValue);
  sourceCode : SourceCode
}.

(** ** Effects

    [reports] collects the calls of [context.report], oldest first.
    [checked] is a ghost log of the arguments [check] was called with, oldest
    first; nothing reads it, it only lets statements speak of which
    candidates a handler evaluated. *)

Record State := { reports : list Violation; checked : list (option Node) }.

Inductive Result (A : Type) : Type :=
| Ok (a : A) (s : State)
| TypeError.
Arguments Ok {A} a s.
Arguments TypeError {A}.

Definition Eff (A : Type) : Type := State → Result A.

#[global] Instance Eff_ret : MRet Eff := λ A a s, Ok a s.

#[global] Instance Eff_bind : MBind Eff := λ A B f m s,
  match m s with
  | Ok a s' => f a s'
  | TypeError => TypeError
  end.

(** The [TypeError] the engine raises. *)
Definition throw {A : Type} : Eff A := λ _, TypeError.

(** [context.report(descriptor)] *)
Definition report (v : Violation) : Eff unit := λ s,
  Ok () {| reports := reports s ++ [v]; checked := checked s |}.

Definition log_check (node : option Node) : Eff unit := λ s,
  Ok () {| reports := reports s; checked := checked s ++ [node] |}.

(** [o.f] where [o] may be [null] or [undefined]. *)
Definition prop {A : Type} (o : option Node) (f : Node → A) : Eff A :=
  match o with
  | Some n => mret (f n)
  | None => throw
  end.

(** [a && b] on conditions: [b] is evaluated only when [a] is truthy. *)
Definition andE (a b : Eff bool) : Eff bool :=
  x ← a; if x : bool then b else mret false.

Definition empty_state : State := {| reports := []; checked := [] |}.

(** ** Constants *)

Definition DEFAULTS : gmap string JSValue :=
  list_to_map [
    ("declaration", VBool true);
    ("assignment", VBool true);
    ("return", VBool true);
    ("arrow", VBool true);
    ("condition", VBool false);
    ("logical", VBool false);
    ("prop", VBool false)
  ].

(** [obj[key]]: a missing property reads as [undefined]. *)
Definition get_property (obj : gmap string JSValue) (key : string) : JSValue :=
  default VUndefined (obj !! key).

(** ** Rule definition: the body of [create] *)

Section Create.
Variable context : Context.

(** [isParenthesised] returns the value of a chain of [&&]: the falsy
    token when a neighbour is missing, a boolean otherwise. *)
Definition isParenthesised (node : Node) : JSValue :=
  let previousToken := getTokenBefore (sourceCode context) node in
  let nextToken := getTokenAfter (sourceCode context) node in
  match previousToken, nextToken with
  | Some p, Some n =>
      VBool (bool_decide (Token.value p = "(")
             && ((Token.range p).2 <=? (range node).1)%nat
             && bool_decide (Token.value n = ")")
             && ((range node).2 <=? (Token.range n).1)%nat)
  | _, _ => VNull
  end.

Definition isMultilines (node : Node) : bool :=
  negb (bool_decide (line (start (loc node)) = line (end_ (loc node)))).

(** The [fix] callback of a report on [node]. *)
Definition fix_ (node : Node) : Fixer → Fix := λ fixer,
  replaceText fixer node ("(" +:+ getText (sourceCode context) node +:+ ")").

Definition check (node : option Node) : Eff unit :=
  log_check node;;
  match node with
  | None => mret ()
  | Some n =>
      if negb (bool_decide (type n = "JSXElement")) then mret ()
      else if negb (truthy (isParenthesised n)) && isMultilines n then
        report {| v_node := n;
            v_message := "Missing parentheses around multilines JSX";
            v_fix := Some (fix_ n) |}
      else mret ()
  end.

Definition isEnabled (type : string) : JSValue :=
  let userOptions := default ∅ (head (options context)) in
  match userOptions !! type with
  | Some v => v
  | None => get_property DEFAULTS type
  end.

Definition VariableDeclarator (node : Node) : Eff unit :=
  if negb (truthy (isEnabled "declaration")) then mret ()
  else
    c ← andE (mret (negb (truthy (isEnabled "condition"))))
           (andE (mret (bool_decide (is_Some (init node))))
              (t ← prop (init node) type;
               mret (bool_decide (t = "ConditionalExpression"))));
    if c : bool then
      (a ← prop (init node) consequent; check a);;
      (b ← prop (init node) alternate; check b)
    else check (init node).

Definition AssignmentExpression (node : Node) : Eff unit :=
  if negb (truthy (isEnabled "assignment")) then mret ()
  else
    c ← andE (mret (negb (truthy (isEnabled "condition"))))
           (t ← prop (right node) type;
            mret (bool_decide (t = "ConditionalExpression")));
    if c : bool then
      (a ← prop (right node) consequent; check a);;
      (b ← prop (right node) alternate; check b)
    else check (right node).

Definition ReturnStatement (node : Node) : Eff unit :=
  if truthy (isEnabled "return") then check (argument node) else mret ().

Definition ArrowFunctionExpression_exit (node : Node) : Eff unit :=
  let arrowBody := body node in
  c ← andE (mret (truthy (isEnabled "arrow")))
         (t ← prop arrowBody type;
          mret (negb (bool_decide (t = "BlockStatement"))));
  if c : bool then check arrowBody else mret ().

Definition ConditionalExpression (node : Node) : Eff unit :=
  if truthy (isEnabled "condition") then
    check (consequent node);; check (alternate node)
  else mret ().

Definition LogicalExpression (node : Node) : Eff unit :=
  if truthy (isEnabled "logical") then check (right node) else mret ().

Definition JSXAttribute (node : Node) : Eff unit :=
  c ← andE (mret (truthy (isEnabled "prop")))
         (andE (mret (bool_decide (is_Some (value node))))
            (t ← prop (value node) type;
             mret (bool_decide (t = "JSXExpressionContainer"))));
  if c : bool then e ← prop (value node) expression; check e else mret ().

End Create.

(** The object [create] returns: one handler per traversal event. *)
Record Visitor := {
  on_VariableDeclarator : Node → Eff unit;
  on_AssignmentExpression : Node → Eff unit;
  on_ReturnStatement : Node → Eff unit;
  on_ArrowFunctionExpression_exit : Node → Eff unit;
  on_ConditionalExpression : Node → Eff unit;
  on_LogicalExpression : Node → Eff unit;
  on_JSXAttribute : Node → Eff unit
}.

Definition create (context : Context) : Visitor := {|
  on_VariableDeclarator := VariableDeclarator context;
  on_AssignmentExpression := AssignmentExpression context;
  on_ReturnStatement := ReturnStatement context;
  on_ArrowFunctionExpression_exit := ArrowFunctionExpression_exit context;
  on_ConditionalExpression := ConditionalExpression context;
  on_LogicalExpression := LogicalExpression context;
  on_JSXAttribute := JSXAttribute context
|}.

(** ** Traversal events

    What the host delivers: the name of a registered handler and the node it
    is called with. *)

Inductive Event : Type :=
| EvVariableDeclarator (node : Node)
| EvAssignmentExpression (node : Node)
| EvReturnStatement (node : Node)
| EvArrowFunctionExpression_exit (node : Node)
| EvConditionalExpression (node : Node)
| EvLogicalExpression (node : Node)
| EvJSXAttribute (node : Node).

Definition deliver (v : Visitor) (e : Event) : Eff unit :=
  match e with
  | EvVariableDeclarator n => on_VariableDeclarator v n
  | EvAssignmentExpression n => on_AssignmentExpression v n
  | EvReturnStatement n => on_ReturnStatement v n
  | EvArrowFunctionExpression_exit n => on_ArrowFunctionExpression_exit v n
  | EvConditionalExpression n => on_ConditionalExpression v n
  | EvLogicalExpression n => on_LogicalExpression v n
  | EvJSXAttribute n => on_JSXAttribute v n
  end.

(** An event is well formed when the node has the children its kind always
    has in a parsed tree: an assignment its right-hand side, an arrow function
    its body, a conditional both branches, a logical expression its right
    operand.  An initializer, a return argument and an attribute value may be
    absent. *)
Definition well_formed (e : Event) : Prop :=
  match e with
  | EvVariableDeclarator _ | EvReturnStatement _ | EvJSXAttribute _ => True
  | EvAssignmentExpression n | EvLogicalExpression n => is_Some (right n)
  | EvArrowFunctionExpression_exit n => is_Some (body n)
  | EvConditionalExpression n =>
      is_Some (consequent n) ∧ is_Some (alternate n)
  end.

(** The reports and the check log an effect added to a state. *)
Definition new_reports (s s' : State) : list Violation :=
  drop (length (reports s)) (reports s').

Definition new_checked (s s' : State) : list (option Node) :=
  drop (length (checked s)) (checked s').

(** ** Building nodes and options for examples *)

Definition pos (l : nat) : Position := {| line := l; column := 0 |}.

Definition leaf (ty : string) (from to l1 l2 : nat) : Node :=
  MkNode ty (from, to) {| start := pos l1; end_ := pos l2 |}
    None None None None None None None None.

(** [{ key: b }] as a rule option. *)
Definition option_object (key : string) (b : bool) : gmap string JSValue :=
  {[ key := VBool b ]}.

(** ** The host, as far as the fix is concerned

    The rule only builds a [fix] callback; calling it, applying the edit and
    tokenizing the result are the host's work, and none of that code is part
    of this repository.  What follows models it from its interface. *)

Module Host.

(** [text.slice(from, to)] *)
Definition slice (from to : nat) (text : string) : string :=
  String.substring from (to - from) text.

(** Modelled from the spec: the host's [fixer.replaceText(node, text)],
    which is missing from the sources; it yields "a single replace-range
    edit" over the node's own range. *)
Definition ruleFixer : Fixer :=
  {| replaceText node text := {| fix_range := range node; fix_text := text |} |}.

(** Modelled from the spec: the host's fix application, which is missing
    from the sources; the edit replaces the characters of its range and
    nothing else. *)
Definition applyFix (text : string) (f : Fix) : string :=
  slice 0 (fix_range f).1 text +:+ fix_text f
    +:+ slice (fix_range f).2 (String.length text) text.

(** Modelled from the spec: the host's token queries, which are missing
    from the sources: "the token immediately preceding the node's start and
    the token immediately following the node's end in the lexical stream".
    The stream is the list of tokens in source order; the token before a
    node is the last one that starts before the node starts, the token
    after it the first one that ends after the node ends. *)
Definition tokenBefore (tokens : list Token.t) (node : Node)
  : option Token.t :=
  last (filter (λ t, (Token.range t).1 < (range node).1) tokens).

Definition tokenAfter (tokens : list Token.t) (node : Node)
  : option Token.t :=
  head (filter (λ t, (range node).2 < (Token.range t).2) tokens).

(** Modelled from the spec: [getText(node)], missing from the sources: the
    node's "exact original source text", the characters of its range. *)
Definition textOf (text : string) (node : Node) : string :=
  slice (range node).1 (range node).2 text.

Definition sourceCodeOf (text : string) (tokens : list Token.t)
  : SourceCode :=
  {| getTokenBefore := tokenBefore tokens;
     getTokenAfter := tokenAfter tokens;
     getText := textOf text |}.

(** A token stream: tokens are not empty and follow one another in source
    order without overlap. *)
Definition token_ok (t : Token.t) : Prop :=
  (Token.range t).1 < (Token.range t).2.

Fixpoint in_order (tokens : list Token.t) : Prop :=
  match tokens with
  | [] => True
  | t :: rest =>
      Forall (λ u, (Token.range t).2 ≤ (Token.range u).1) rest
      ∧ in_order rest
  end.

Definition stream (tokens : list Token.t) : Prop :=
  Forall token_ok tokens ∧ in_order tokens.

(** Every token carries the characters of its range. *)
Definition spells (text : string) (t : Token.t) : Prop :=
  (Token.range t).2 ≤ String.length text
  ∧ slice (Token.range t).1 (Token.range t).2 text = Token.value t.

Definition contextOf (opts : list (gmap string JSValue)) (text : string)
  (tokens : list Token.t) : Context :=
  {| options := opts; sourceCode := sourceCodeOf text tokens |}.

End Host.

(** ** The specification's vocabulary

    [shouldFlag] follows the words of the specification's predicate
    ("multiline AND NOT parenthesised", on markup elements only); [violation]
    is the report it calls for, and [flagged] the report, if any, a candidate
    gives rise to.  The theorems below compare [check] with them. *)

Definition shouldFlag (context : Context) (node : Node) : bool :=
  bool_decide (type node = "JSXElement")
  && isMultilines node
  && negb (truthy (isParenthesised context node)).

Definition violation (context : Context) (node : Node) : Violation :=
  {| v_node := node;
     v_message := "Missing parentheses around multilines JSX";
     v_fix := Some (fix_ context node) |}.

Definition flagged (context : Context) (candidate : option Node)
  : option Violation :=
  match candidate with
  | Some n => if shouldFlag context n then Some (violation context n) else None
  | None => None
  end.

(** What an effect may do to the state: extend the check log by [cs] and the
    reports by the violations [cs] gives rise to. *)
Definition evaluates (context : Context) (cs : list (option Node))
  (s s' : State) : Prop :=
  checked s' = checked s ++ cs
  ∧ reports s' = reports s ++ omap (flagged context) cs.

(** The number of nodes of a tree. *)
Fixpoint node_size (n : Node) : nat :=
  let child o := match o with Some c => node_size c | None => 0 end in
  match n with
  | MkNode _ _ _ c1 c2 c3 c4 c5 c6 c7 c8 =>
      S (child c1 + child c2 + child c3 + child c4 + child c5 + child c6
         + child c7 + child c8)
  end.

(** ** Small source files

    The tokens and nodes a parser yields for three short texts, for the
    examples.  [LF] is the line break. *)

Definition LF : string := String (Ascii.ascii_of_nat 10) "".

Definition at_lines (l1 l2 : nat) : SourceLocation :=
  {| start := pos l1; end_ := pos l2 |}.

(** [return <a>], a line break, [</a>;] *)
Module Sample.

Definition text : string := "return <a>" +:+ LF +:+ "</a>;".

Definition tokens : list Token.t :=
  [ Token.mk "return" (0, 6); Token.mk "<" (7, 8); Token.mk "a" (8, 9);
    Token.mk ">" (9, 10); Token.mk LF (10, 11); Token.mk "<" (11, 12);
    Token.mk "/" (12, 13); Token.mk "a" (13, 14); Token.mk ">" (14, 15);
    Token.mk ";" (15, 16) ].

(** The element [<a>...</a>]: offsets 7 to 15, lines 1 to 2. *)
Definition element : Node := leaf "JSXElement" 7 15 1 2.

(** The same element once the text reads [return (<a>...</a>);]. *)
Definition element_fixed : Node := leaf "JSXElement" 8 16 1 2.

(** The text once fixed, and its tokens. *)
Definition text_fixed : string := "return (<a>" +:+ LF +:+ "</a>);".

Definition tokens_fixed : list Token.t :=
  [ Token.mk "return" (0, 6); Token.mk "(" (7, 8); Token.mk "<" (8, 9);
    Token.mk "a" (9, 10); Token.mk ">" (10, 11); Token.mk LF (11, 12);
    Token.mk "<" (12, 13); Token.mk "/" (13, 14); Token.mk "a" (14, 15);
    Token.mk ">" (15, 16); Token.mk ")" (16, 17); Token.mk ";" (17, 18) ].

Definition returnStatement : Node :=
  MkNode "ReturnStatement" (0, 16) (at_lines 1 2)
    None None (Some element) None None None None None.

Definition context (opts : list (gmap string JSValue)) : Context :=
  Host.contextOf opts text tokens.

End Sample.

(** [var x = c ? <a>], a line break, [</a> : <b/>;] *)
Module Ternary.

Definition text : string := "var x = c ? <a>" +:+ LF +:+ "</a> : <b/>;".

Definition tokens : list Token.t :=
  [ Token.mk "var" (0, 3); Token.mk "x" (4, 5); Token.mk "=" (6, 7);
    Token.mk "c" (8, 9); Token.mk "?" (10, 11); Token.mk "<" (12, 13);
    Token.mk "a" (13, 14); Token.mk ">" (14, 15); Token.mk LF (15, 16);
    Token.mk "<" (16, 17); Token.mk "/" (17, 18); Token.mk "a" (18, 19);
    Token.mk ">" (19, 20); Token.mk ":" (21, 22); Token.mk "<" (23, 24);
    Token.mk "b" (24, 25); Token.mk "/" (25, 26); Token.mk ">" (26, 27);
    Token.mk ";" (27, 28) ].

(** [<a>...</a>], lines 1 to 2, and [<b/>], on line 2. *)
Definition yes : Node := leaf "JSXElement" 12 20 1 2.
Definition no : Node := leaf "JSXElement" 23 27 2 2.

(** [c ? <a>...</a> : <b/>], lines 1 to 2. *)
Definition conditional : Node :=
  MkNode "ConditionalExpression" (8, 27) (at_lines 1 2)
    None None None None (Some yes) (Some no) None None.

(** [x = c ? ... : <b/>] as a declarator. *)
Definition declarator : Node :=
  MkNode "VariableDeclarator" (4, 27) (at_lines 1 2)
    (Some conditional) None None None None None None None.

(** The same characters as an assignment, as they parse without [var]. *)
Definition assignment : Node :=
  MkNode "AssignmentExpression" (4, 27) (at_lines 1 2)
    None (Some conditional) None None None None None None.

Definition context (opts : list (gmap string JSValue)) : Context :=
  Host.contextOf opts text tokens.

End Ternary.

(** [() => <a>], a line break, [</a>] *)
Module Arrow.

Definition text : string := "() => <a>" +:+ LF +:+ "</a>".

Definition tokens : list Token.t :=
  [ Token.mk "(" (0, 1); Token.mk ")" (1, 2); Token.mk "=>" (3, 5);
    Token.mk "<" (6, 7); Token.mk "a" (7, 8); Token.mk ">" (8, 9);
    Token.mk LF (9, 10); Token.mk "<" (10, 11); Token.mk "/" (11, 12);
    Token.mk "a" (12, 13); Token.mk ">" (13, 14) ].

Definition element : Node := leaf "JSXElement" 6 14 1 2.

Definition arrow : Node :=
  MkNode "ArrowFunctionExpression" (0, 14) (at_lines 1 2)
    None None None (Some element) None None None None.

Definition context (opts : list (gmap string JSValue)) : Context :=
  Host.contextOf opts text tokens.

End Arrow.

(** ** The rest of the rule object

    [meta.schema[0]], the schema of the options object: an object schema with
    one boolean property per context and no other property allowed. *)

Record ObjectSchema := {
  schema_type : string;
  properties : gmap string string;
  additionalProperties : bool
}.

Definition schema : ObjectSchema := {|
  schema_type := "object";
  properties :=
    list_to_map [
      ("declaration", "boolean");
      ("assignment", "boolean");
      ("return", "boolean");
      ("arrow", "boolean");
      ("condition", "boolean");
      ("logical", "boolean");
      ("prop", "boolean")
    ];
  additionalProperties := false
|}.

(** Modelled from the spec: the host's validation of the options against the
    schema, which is missing from the sources ("unrecognized keys, wrong
    value types" are "rejected upstream").  A value has a schema type when it
    is a primitive of that kind.  An object is accepted when each of its
    properties that holds a value has the type the schema gives it, a
    property the schema does not list being accepted only if additional
    properties are allowed; a property that holds [undefined] is passed
    over, as a validator passes over a property it takes for missing, so
    that the model accepts every object the host accepts. *)
Definition has_type (ty : string) (v : JSValue) : bool :=
  match v with
  | VUndefined => false
  | VNull => bool_decide (ty = "null")
  | VBool _ => bool_decide (ty = "boolean")
  | VNum _ => bool_decide (ty = "number")
  | VStr _ => bool_decide (ty = "string")
  | VObject => bool_decide (ty = "object")
  end.

Definition accepts (sch : ObjectSchema) (o : gmap string JSValue) : Prop :=
  map_Forall (λ k v,
    v = VUndefined
    ∨ match properties sch !! k with
      | Some ty => has_type ty v = true
      | None => additionalProperties sch = true
      end) o.

(** The context name a handler asks [isEnabled] about before anything
    else. *)
Definition context_name (e : Event) : string :=
  match e with
  | EvVariableDeclarator _ => "declaration"
  | EvAssignmentExpression _ => "assignment"
  | EvReturnStatement _ => "return"
  | EvArrowFunctionExpression_exit _ => "arrow"
  | EvConditionalExpression _ => "condition"
  | EvLogicalExpression _ => "logical"
  | EvJSXAttribute _ => "prop"
  end.

(** The node an event is delivered with. *)
Definition event_node (e : Event) : Node :=
  match e with
  | EvVariableDeclarator n | EvAssignmentExpression n | EvReturnStatement n
  | EvArrowFunctionExpression_exit n | EvConditionalExpression n
  | EvLogicalExpression n | EvJSXAttribute n => n
  end.

(** [prop={<a>], a line break, [</a>}] and [prop="a"]: an attribute whose
    value is an expression container, and one whose value is a literal. *)
Module Attribute.

Definition text : string := "prop={<a>" +:+ LF +:+ "</a>}".

Definition tokens : list Token.t :=
  [ Token.mk "prop" (0, 4); Token.mk "=" (4, 5); Token.mk "{" (5, 6);
    Token.mk "<" (6, 7); Token.mk "a" (7, 8); Token.mk ">" (8, 9);
    Token.mk LF (9, 10); Token.mk "<" (10, 11); Token.mk "/" (11, 12);
    Token.mk "a" (12, 13); Token.mk ">" (13, 14); Token.mk "}" (14, 15) ].

Definition element : Node := leaf "JSXElement" 6 14 1 2.

Definition container : Node :=
  MkNode "JSXExpressionContainer" (5, 15) (at_lines 1 2)
    None None None None None None (Some element) None.

Definition attribute : Node :=
  MkNode "JSXAttribute" (0, 15) (at_lines 1 2)
    None None None None None None None (Some container).

Definition literal : Node :=
  MkNode "JSXAttribute" (0, 8) (at_lines 1 1)
    None None None None None None None (Some (leaf "Literal" 5 8 1 1)).

Definition context (opts : list (gmap string JSValue)) : Context :=
  Host.contextOf opts text tokens.

End Attribute.

(** * Properties *)

(** ** Running effects *)

Ltac run :=
  unfold andE, prop, throw, report, log_check, mbind, mret, Eff_bind, Eff_ret
    in *; simpl in *.

Lemma new_reports_app s s' vs :
  reports s' = reports s ++ vs → new_reports s s' = vs.
Proof. unfold new_reports. intros ->. by rewrite drop_app_length. Qed.

Lemma new_checked_app s s' cs :
  checked s' = checked s ++ cs → new_checked s s' = cs.
Proof. unfold new_checked. intros ->. by rewrite drop_app_length. Qed.

(** [check] never fails; it logs its argument and reports exactly what
    [flagged] says. *)
Lemma check_run context o s :
  check context o s =
    Ok () {| reports := reports s ++ option_list (flagged context o);
             checked := checked s ++ [o] |}.
Proof.
  unfold check, flagged, shouldFlag. run.
  destruct o as [n|]; simpl; [|by rewrite app_nil_r].
  destruct (bool_decide (type n = "JSXElement")); simpl;
    [|by rewrite app_nil_r].
  destruct (truthy (isParenthesised context n)), (isMultilines n); simpl;
    by rewrite ?app_nil_r.
Qed.

Lemma evaluates_nil context s : evaluates context [] s s.
Proof. split; simpl; by rewrite app_nil_r. Qed.

Lemma evaluates_new context cs s s' :
  evaluates context cs s s' →
  new_checked s s' = cs ∧ new_reports s s' = omap (flagged context) cs.
Proof.
  intros [Hc Hr]. split; [by apply new_checked_app | by apply new_reports_app].
Qed.

Lemma check_two context a b s :
  ∃ s', (check context a;; check context b) s = Ok () s'
        ∧ evaluates context [a; b] s s'.
Proof.
  run. rewrite check_run, check_run. eexists; split; [done|].
  split; simpl; rewrite <- (assoc_L (++)); [done|].
  by destruct (flagged context a), (flagged context b).
Qed.

(** ** The multiline-unparenthesised predicate *)

Lemma isMultilines_true n :
  isMultilines n = true ↔ line (start (loc n)) ≠ line (end_ (loc n)).
Proof.
  unfold isMultilines. rewrite negb_true_iff, bool_decide_eq_false. done.
Qed.

Lemma shouldFlag_true context n :
  shouldFlag context n = true ↔
    type n = "JSXElement"
    ∧ line (start (loc n)) ≠ line (end_ (loc n))
    ∧ truthy (isParenthesised context n) = false.
Proof.
  unfold shouldFlag.
  rewrite !andb_true_iff, bool_decide_eq_true, isMultilines_true,
    negb_true_iff.
  tauto.
Qed.

Lemma flagged_Some context o v :
  flagged context o = Some v ↔
    ∃ n, o = Some n ∧ shouldFlag context n = true ∧ v = violation context n.
Proof.
  destruct o as [n|]; simpl.
  - destruct (shouldFlag context n) eqn:E; split.
    + intros [= <-]. eauto.
    + by intros (? & [= <-] & _ & ->).
    + done.
    + intros (? & [= <-] & ? & _). congruence.
  - split; [done | by intros (? & ? & _)].
Qed.

(** C1: for a candidate that is a markup element, [check] reports a
    violation if and only if the element's start and end lines differ and it
    is not parenthesised; it then reports exactly one, on that element.  In
    particular an element that starts and ends on the same line is never
    reported, parenthesised or not. *)
Theorem check_reports_iff context n s :
  type n = "JSXElement" →
  ∃ s', check context (Some n) s = Ok () s'
    ∧ (new_reports s s' ≠ [] ↔
         line (start (loc n)) ≠ line (end_ (loc n))
         ∧ truthy (isParenthesised context n) = false)
    ∧ (new_reports s s' = [] ∨ new_reports s s' = [violation context n])
    ∧ (line (start (loc n)) = line (end_ (loc n)) → reports s' = reports s).
Proof.
  intros Hty. eexists. split; [apply check_run|].
  rewrite (new_reports_app s _ (option_list (flagged context (Some n))))
    by done.
  simpl. destruct (shouldFlag context n) eqn:E; simpl.
  - apply shouldFlag_true in E as (_ & Hml & Hp).
    split_and!; [split; by intros _ | by right | by intros ?].
  - assert (¬ (line (start (loc n)) ≠ line (end_ (loc n))
               ∧ truthy (isParenthesised context n) = false)) as Hn.
    { intros [? ?]. apply not_true_iff_false in E. apply E, shouldFlag_true.
      done. }
    split_and!; [split; [done | by intros ?] | by left |].
    intros _. apply app_nil_r.
Qed.

(** An element of two lines without parentheses is reported; the statement
    evaluated on [return <a>...</a>;]. *)
Lemma check_reports_iff_witness :
  type Sample.element = "JSXElement"
  ∧ ∃ s', check (Sample.context []) (Some Sample.element) empty_state
            = Ok () s'
          ∧ new_reports empty_state s'
            = [violation (Sample.context []) Sample.element].
Proof.
  split; [reflexivity|].
  destruct (check_reports_iff (Sample.context []) Sample.element empty_state
              eq_refl) as (s' & Hrun & Hiff & Hone & _).
  exists s'. split; [exact Hrun|].
  destruct Hone as [Hnil|Hone]; [|exact Hone].
  exfalso. apply Hiff; [|exact Hnil].
  split; [vm_compute; discriminate | reflexivity].
Defined.

(** C2: a node is parenthesised exactly when both neighbour lookups yield a
    token, the one before reads [(] and ends at or before the node's start,
    and the one after reads [)] and starts at or after the node's end.  When
    either lookup yields nothing the node is not parenthesised. *)
Theorem isParenthesised_iff context node :
  (truthy (isParenthesised context node) = true ↔
     ∃ previousToken nextToken,
       getTokenBefore (sourceCode context) node = Some previousToken
       ∧ getTokenAfter (sourceCode context) node = Some nextToken
       ∧ Token.value previousToken = "("
       ∧ (Token.range previousToken).2 ≤ (range node).1
       ∧ Token.value nextToken = ")"
       ∧ (Token.range nextToken).1 ≥ (range node).2)
  ∧ (getTokenBefore (sourceCode context) node = None
     ∨ getTokenAfter (sourceCode context) node = None →
     isParenthesised context node = VNull
     ∧ truthy (isParenthesised context node) = false).
Proof.
  unfold isParenthesised.
  destruct (getTokenBefore (sourceCode context) node) as [p|],
    (getTokenAfter (sourceCode context) node) as [q|]; simpl.
  - split; [|by intros [|]].
    rewrite !andb_true_iff, !bool_decide_eq_true, !Nat.leb_le. split.
    + intros [[[? ?] ?] ?]. exists p, q. repeat split; done.
    + intros (? & ? & [= <-] & [= <-] & ? & ? & ? & ?). repeat split; done.
  - split; [|done]. split; [done|]. by intros (? & ? & _ & ? & _).
  - split; [|done]. split; [done|]. by intros (? & ? & ? & _).
  - split; [|done]. split; [done|]. by intros (? & ? & ? & _).
Qed.

(** ** The configuration resolver *)

(** C3: for each of the seven context names, [isEnabled] returns the value
    the user's options object holds for the name whenever it holds one,
    whatever the value (an explicit [false] included), and the fixed default
    for the name otherwise; without an options object every name has its
    default. *)
Theorem isEnabled_resolves context name d :
  (name, d) ∈ [("declaration", true); ("assignment", true); ("return", true);
               ("arrow", true); ("condition", false); ("logical", false);
               ("prop", false)] →
  (∀ userOptions v,
     head (options context) = Some userOptions → userOptions !! name = Some v →
     isEnabled context name = v)
  ∧ (∀ userOptions,
       head (options context) = Some userOptions → userOptions !! name = None →
       isEnabled context name = VBool d)
  ∧ (head (options context) = None → isEnabled context name = VBool d).
Proof.
  intros Hin. unfold isEnabled.
  assert (get_property DEFAULTS name = VBool d) as Hd.
  { rewrite !elem_of_cons, elem_of_nil in Hin.
    destruct Hin as [[= -> ->]|[[= -> ->]|[[= -> ->]|[[= -> ->]|[[= -> ->]|
      [[= -> ->]|[[= -> ->]|[]]]]]]]]; reflexivity. }
  repeat split.
  - intros o v -> Hv. simpl. by rewrite Hv.
  - intros o -> Hv. simpl. by rewrite Hv.
  - intros ->. simpl. by rewrite lookup_empty.
Qed.

(** [{declaration: false}] switches the declaration context off although its
    default is [true]. *)
Lemma isEnabled_resolves_witness :
  ("declaration", true)
    ∈ [("declaration", true); ("assignment", true); ("return", true);
       ("arrow", true); ("condition", false); ("logical", false);
       ("prop", false)]
  ∧ isEnabled (Sample.context [option_object "declaration" false])
      "declaration" = VBool false.
Proof.
  assert (("declaration", true)
    ∈ [("declaration", true); ("assignment", true); ("return", true);
       ("arrow", true); ("condition", false); ("logical", false);
       ("prop", false)]) as Hin by apply list_elem_of_here.
  split; [exact Hin|].
  destruct (isEnabled_resolves
              (Sample.context [option_object "declaration" false])
              "declaration" true Hin) as [Hexplicit _].
  apply (Hexplicit (option_object "declaration" false)); reflexivity.
Defined.

(** ** The context classifier *)

Lemma consequent_smaller c d :
  consequent c = Some d → node_size d < node_size c.
Proof. destruct c; simpl. intros ->. lia. Qed.

Lemma alternate_smaller c d :
  alternate c = Some d → node_size d < node_size c.
Proof. destruct c; simpl. intros ->. lia. Qed.

(** A conditional is neither of its own branches. *)
Lemma not_own_branch c : Some c ∉ [consequent c; alternate c].
Proof.
  rewrite !elem_of_cons, elem_of_nil. intros [H|[H|[]]]; symmetry in H.
  - apply consequent_smaller in H. lia.
  - apply alternate_smaller in H. lia.
Qed.

(** The branch both handlers take on a conditional when the condition
    context is off: the two branches are checked, in order. *)
Lemma branches_checked context c s :
  ∃ s', ((a ← prop (Some c) consequent; check context a);;
         (b ← prop (Some c) alternate; check context b)) s = Ok () s'
    ∧ new_checked s s' = [consequent c; alternate c]
    ∧ (Some c ∉ new_checked s s')
    ∧ new_reports s s'
      = omap (flagged context) [consequent c; alternate c].
Proof.
  destruct (check_two context (consequent c) (alternate c) s)
    as (s' & Hrun & Hev).
  exists s'. apply evaluates_new in Hev as [Hc Hr].
  split_and!; [exact Hrun | done | | done].
  rewrite Hc. apply not_own_branch.
Qed.

(** C4: with the declaration context enabled and the condition context
    disabled, a declarator whose initializer is a conditional expression has
    exactly the conditional's consequent and alternate evaluated as
    candidates, in that order, and not the conditional itself; so does, with
    the assignment context enabled, an assignment whose right-hand side is a
    conditional expression. *)
Theorem conditional_special_case context node c s :
  truthy (isEnabled context "condition") = false →
  type c = "ConditionalExpression" →
  (truthy (isEnabled context "declaration") = true → init node = Some c →
   ∃ s', VariableDeclarator context node s = Ok () s'
     ∧ new_checked s s' = [consequent c; alternate c]
     ∧ (Some c ∉ new_checked s s')
     ∧ new_reports s s'
       = omap (flagged context) [consequent c; alternate c])
  ∧ (truthy (isEnabled context "assignment") = true → right node = Some c →
     ∃ s', AssignmentExpression context node s = Ok () s'
       ∧ new_checked s s' = [consequent c; alternate c]
       ∧ (Some c ∉ new_checked s s')
       ∧ new_reports s s'
         = omap (flagged context) [consequent c; alternate c]).
Proof.
  intros Hcond Hty. split; intros Hon Hc.
  - unfold VariableDeclarator. rewrite Hon, Hcond, Hc. run.
    rewrite Hty. simpl. apply branches_checked.
  - unfold AssignmentExpression. rewrite Hon, Hcond, Hc. run.
    rewrite Hty. simpl. apply branches_checked.
Qed.

(** On [var x = c ? <a>...</a> : <b/>;] with the default options the
    declaration and the assignment handlers evaluate the two elements; the
    first, of two lines, is reported. *)
Lemma conditional_special_case_witness :
  truthy (isEnabled (Ternary.context []) "condition") = false
  ∧ type Ternary.conditional = "ConditionalExpression"
  ∧ truthy (isEnabled (Ternary.context []) "declaration") = true
  ∧ init Ternary.declarator = Some Ternary.conditional
  ∧ truthy (isEnabled (Ternary.context []) "assignment") = true
  ∧ right Ternary.assignment = Some Ternary.conditional
  ∧ (∃ s', VariableDeclarator (Ternary.context []) Ternary.declarator
             empty_state = Ok () s'
           ∧ new_checked empty_state s' = [Some Ternary.yes; Some Ternary.no])
  ∧ (∃ s', AssignmentExpression (Ternary.context []) Ternary.assignment
             empty_state = Ok () s'
           ∧ new_checked empty_state s' = [Some Ternary.yes; Some Ternary.no]).
Proof.
  split_and!; try reflexivity.
  - destruct (conditional_special_case (Ternary.context [])
                Ternary.declarator Ternary.conditional empty_state
                eq_refl eq_refl) as [Hdecl _].
    destruct (Hdecl eq_refl eq_refl) as (s' & Hrun & Hc & _).
    exists s'. split; [exact Hrun | exact Hc].
  - destruct (conditional_special_case (Ternary.context [])
                Ternary.assignment Ternary.conditional empty_state
                eq_refl eq_refl) as [_ Hassign].
    destruct (Hassign eq_refl eq_refl) as (s' & Hrun & Hc & _).
    exists s'. split; [exact Hrun | exact Hc].
Defined.

(** Every handler, when it returns, has extended the log by the candidates
    it passed to [check] and the reports by what they give rise to. *)
Ltac settle :=
  intros [= <-];
  first
    [ exists []; apply evaluates_nil
    | eexists; split; simpl; rewrite <- ?(assoc_L (++)); simpl;
      [ reflexivity
      | simpl; repeat match goal with |- context [flagged ?c ?o] =>
          destruct (flagged c o) end; simpl; rewrite ?app_nil_r;
        reflexivity ] ].

Lemma deliver_evaluates context e s s' :
  deliver (create context) e s = Ok () s' → ∃ cs, evaluates context cs s s'.
Proof.
  destruct e as [n|n|n|n|n|n|n]; simpl.
  - unfold VariableDeclarator.
    destruct (truthy (isEnabled context "declaration")),
      (truthy (isEnabled context "condition")), (init n) as [i|]; run;
      try destruct (bool_decide (type i = "ConditionalExpression")); run;
      rewrite ?check_run; settle.
  - unfold AssignmentExpression.
    destruct (truthy (isEnabled context "assignment")),
      (truthy (isEnabled context "condition")), (right n) as [i|]; run;
      try destruct (bool_decide (type i = "ConditionalExpression")); run;
      rewrite ?check_run; try discriminate; settle.
  - unfold ReturnStatement.
    destruct (truthy (isEnabled context "return")); run;
      rewrite ?check_run; settle.
  - unfold ArrowFunctionExpression_exit.
    destruct (truthy (isEnabled context "arrow")), (body n) as [b|]; run;
      try destruct (bool_decide (type b = "BlockStatement")); run;
      rewrite ?check_run; try discriminate; settle.
  - unfold ConditionalExpression.
    destruct (truthy (isEnabled context "condition")); run;
      rewrite ?check_run; settle.
  - unfold LogicalExpression.
    destruct (truthy (isEnabled context "logical")); run;
      rewrite ?check_run; settle.
  - unfold JSXAttribute.
    destruct (truthy (isEnabled context "prop")), (value n) as [a|]; run;
      try destruct (bool_decide (type a = "JSXExpressionContainer")); run;
      rewrite ?check_run; settle.
Qed.

(** On a well-formed event no handler fails. *)
Lemma deliver_total context e s :
  well_formed e → ∃ s', deliver (create context) e s = Ok () s'.
Proof.
  destruct e as [n|n|n|n|n|n|n]; simpl.
  - intros _. unfold VariableDeclarator.
    destruct (truthy (isEnabled context "declaration")),
      (truthy (isEnabled context "condition")), (init n) as [i|]; run;
      try destruct (bool_decide (type i = "ConditionalExpression")); run;
      rewrite ?check_run; eauto.
  - intros [r Hr]. unfold AssignmentExpression. rewrite Hr.
    destruct (truthy (isEnabled context "assignment")),
      (truthy (isEnabled context "condition")); run;
      try destruct (bool_decide (type r = "ConditionalExpression")); run;
      rewrite ?check_run; eauto.
  - intros _. unfold ReturnStatement.
    destruct (truthy (isEnabled context "return")); run;
      rewrite ?check_run; eauto.
  - intros [b Hb]. unfold ArrowFunctionExpression_exit. rewrite Hb.
    destruct (truthy (isEnabled context "arrow")); run;
      try destruct (bool_decide (type b = "BlockStatement")); run;
      rewrite ?check_run; eauto.
  - intros _. unfold ConditionalExpression.
    destruct (truthy (isEnabled context "condition")); run;
      rewrite ?check_run; eauto.
  - intros _. unfold LogicalExpression.
    destruct (truthy (isEnabled context "logical")); run;
      rewrite ?check_run; eauto.
  - intros _. unfold JSXAttribute.
    destruct (truthy (isEnabled context "prop")), (value n) as [a|]; run;
      try destruct (bool_decide (type a = "JSXExpressionContainer")); run;
      rewrite ?check_run; eauto.
Qed.

(** C5 fails as stated.  The conditional of
    [var x = c ? <a>...</a> : <b/>;] spans two lines and
    has no parentheses around it, and both the declaration and the condition
    context are enabled; yet the declarator event reports nothing, and the
    only report of the conditional event is on the consequent.  The
    conditional as a whole is not flagged. *)
Lemma conditional_not_flagged_counterexample :
  truthy (isEnabled (Ternary.context [option_object "condition" true])
            "condition") = true
  ∧ truthy (isEnabled (Ternary.context [option_object "condition" true])
              "declaration") = true
  ∧ init Ternary.declarator = Some Ternary.conditional
  ∧ type Ternary.conditional = "ConditionalExpression"
  ∧ isMultilines Ternary.conditional = true
  ∧ truthy (isParenthesised
              (Ternary.context [option_object "condition" true])
              Ternary.conditional) = false
  ∧ VariableDeclarator (Ternary.context [option_object "condition" true])
      Ternary.declarator empty_state
    = Ok () {| reports := []; checked := [Some Ternary.conditional] |}
  ∧ ConditionalExpression (Ternary.context [option_object "condition" true])
      Ternary.conditional empty_state
    = Ok () {| reports :=
                 [violation
                    (Ternary.context [option_object "condition" true])
                    Ternary.yes];
               checked := [Some Ternary.yes; Some Ternary.no] |}.
Proof. split_and!; reflexivity. Qed.

(** C5, amended: for a declarator whose initializer is a conditional
    expression, when the condition context is enabled, the declaration
    handler evaluates at most the conditional itself (exactly it when the
    declaration context is enabled), which is never flagged since it is not
    a markup element, so the declarator event reports nothing; the
    conditional's consequent and alternate are evaluated, independently and
    in that order, by the condition handler on the conditional's own
    event. *)
Theorem conditional_with_condition_enabled context node c s :
  truthy (isEnabled context "condition") = true →
  init node = Some c →
  type c = "ConditionalExpression" →
  (∃ s', VariableDeclarator context node s = Ok () s'
     ∧ new_checked s s'
       = (if truthy (isEnabled context "declaration") then [Some c] else [])
     ∧ new_reports s s' = []
     ∧ flagged context (Some c) = None)
  ∧ (∃ s', ConditionalExpression context c s = Ok () s'
       ∧ new_checked s s' = [consequent c; alternate c]
       ∧ new_reports s s'
         = omap (flagged context) [consequent c; alternate c]).
Proof.
  intros Hcond Hinit Hty.
  assert (flagged context (Some c) = None) as Hnot.
  { simpl. unfold shouldFlag. rewrite Hty. done. }
  split.
  - unfold VariableDeclarator. rewrite Hcond, Hinit.
    destruct (truthy (isEnabled context "declaration")); run.
    + rewrite check_run. eexists. split; [done|].
      split_and!; [by apply new_checked_app | | done].
      apply new_reports_app. simpl. unfold shouldFlag. rewrite Hty. done.
    + exists s. split; [done|]. unfold new_checked, new_reports.
      rewrite !drop_all. done.
  - unfold ConditionalExpression. rewrite Hcond.
    destruct (check_two context (consequent c) (alternate c) s)
      as (s' & Hrun & Hev).
    exists s'. apply evaluates_new in Hev as [Hc Hr]. done.
Qed.

(** On [var x = c ? <a>...</a> : <b/>;] with [{condition: true}]. *)
Lemma conditional_with_condition_enabled_witness :
  truthy (isEnabled (Ternary.context [option_object "condition" true])
            "condition") = true
  ∧ init Ternary.declarator = Some Ternary.conditional
  ∧ type Ternary.conditional = "ConditionalExpression"
  ∧ ∃ s', VariableDeclarator
            (Ternary.context [option_object "condition" true])
            Ternary.declarator empty_state = Ok () s'
          ∧ new_reports empty_state s' = [].
Proof.
  split_and!; try reflexivity.
  destruct (conditional_with_condition_enabled
              (Ternary.context [option_object "condition" true])
              Ternary.declarator Ternary.conditional empty_state
              eq_refl eq_refl eq_refl) as [(s' & Hrun & _ & Hr & _) _].
  exists s'. split; [exact Hrun | exact Hr].
Defined.

(** C9: with the arrow context enabled, the arrow handler evaluates the
    function's body as its one candidate when the body is not a block
    statement and evaluates nothing when it is; a return statement is
    handled by the return handler, which evaluates the argument when the
    return context is enabled and nothing when it is not. *)
Theorem arrow_body_candidate context node b s :
  truthy (isEnabled context "arrow") = true →
  body node = Some b →
  (type b ≠ "BlockStatement" →
   ∃ s', ArrowFunctionExpression_exit context node s = Ok () s'
     ∧ new_checked s s' = [Some b]
     ∧ new_reports s s' = option_list (flagged context (Some b)))
  ∧ (type b = "BlockStatement" →
     ArrowFunctionExpression_exit context node s = Ok () s)
  ∧ (∀ r,
       (truthy (isEnabled context "return") = true →
        ∃ s', ReturnStatement context r s = Ok () s'
          ∧ new_checked s s' = [argument r]
          ∧ new_reports s s' = option_list (flagged context (argument r)))
       ∧ (truthy (isEnabled context "return") = false →
          ReturnStatement context r s = Ok () s)).
Proof.
  intros Hon Hb. split_and!.
  - intros Hty. unfold ArrowFunctionExpression_exit. rewrite Hon, Hb. run.
    rewrite bool_decide_false by done. simpl. rewrite check_run.
    eexists. split; [done|].
    split; [by apply new_checked_app | by apply new_reports_app].
  - intros Hty. unfold ArrowFunctionExpression_exit. rewrite Hon, Hb. run.
    rewrite bool_decide_true by done. done.
  - intros r. unfold ReturnStatement. split; intros ->; [|done].
    rewrite check_run. eexists. split; [done|].
    split; [by apply new_checked_app | by apply new_reports_app].
Qed.

(** On [() => <a>...</a>]: the body is the candidate, and is reported. *)
Lemma arrow_body_candidate_witness :
  truthy (isEnabled (Arrow.context []) "arrow") = true
  ∧ body Arrow.arrow = Some Arrow.element
  ∧ type Arrow.element ≠ "BlockStatement"
  ∧ ∃ s', ArrowFunctionExpression_exit (Arrow.context []) Arrow.arrow
            empty_state = Ok () s'
          ∧ new_checked empty_state s' = [Some Arrow.element]
          ∧ new_reports empty_state s'
            = [violation (Arrow.context []) Arrow.element].
Proof.
  split_and!; [reflexivity | reflexivity | discriminate |].
  destruct (arrow_body_candidate (Arrow.context []) Arrow.arrow Arrow.element
              empty_state eq_refl eq_refl) as [Hbody _].
  apply Hbody. discriminate.
Defined.

(** ** Safety and the shape of reports *)

Lemma flagged_skips context o :
  o = None ∨ (∃ n, o = Some n ∧ type n ≠ "JSXElement") →
  flagged context o = None.
Proof.
  intros [->|(n & -> & Hty)]; [done|]. simpl. unfold shouldFlag.
  by rewrite bool_decide_false.
Qed.

(** C8: on every well-formed event, the assignment event with its read of
    the right-hand side's type included, the handler returns without raising
    an error; the reports it adds are exactly those of the candidates it
    evaluated, and a candidate that is absent or is not a markup element
    contributes none: [check] returns on it having reported nothing. *)
Theorem skipped_silently_no_crash context e s :
  well_formed e →
  ∃ s', deliver (create context) e s = Ok () s'
    ∧ new_reports s s' = omap (flagged context) (new_checked s s')
    ∧ (∀ o, o = None ∨ (∃ n, o = Some n ∧ type n ≠ "JSXElement") →
         flagged context o = None
         ∧ ∀ st, check context o st
                 = Ok () {| reports := reports st;
                            checked := checked st ++ [o] |}).
Proof.
  intros Hwf. destruct (deliver_total context e s Hwf) as [s' Hrun].
  exists s'. split; [exact Hrun|].
  destruct (deliver_evaluates _ _ _ _ Hrun) as [cs Hev].
  apply evaluates_new in Hev as [-> ->]. split; [done|].
  intros o Ho. pose proof (flagged_skips context o Ho) as Hnone.
  split; [done|]. intros st. rewrite check_run, Hnone. simpl.
  by rewrite app_nil_r.
Qed.

(** The assignment of the sample is well formed, and is handled. *)
Lemma skipped_silently_no_crash_witness :
  well_formed (EvAssignmentExpression Ternary.assignment)
  ∧ ∃ s', deliver (create (Ternary.context []))
            (EvAssignmentExpression Ternary.assignment) empty_state
          = Ok () s'.
Proof.
  assert (well_formed (EvAssignmentExpression Ternary.assignment)) as Hwf
    by (eexists; reflexivity).
  split; [exact Hwf|].
  destruct (skipped_silently_no_crash (Ternary.context [])
              (EvAssignmentExpression Ternary.assignment) empty_state Hwf)
    as (s' & Hrun & _).
  exists s'. exact Hrun.
Defined.

(** An assignment event without a right-hand side, which no parser
    delivers, is where the unguarded read of [node.right.type] would
    raise. *)
Example assignment_without_right :
  AssignmentExpression (Ternary.context [])
    (MkNode "AssignmentExpression" (4, 27) (at_lines 1 2)
       None None None None None None None None) empty_state
  = TypeError.
Proof. reflexivity. Qed.

(** C10: every violation a handler reports carries a fix, the message
    [Missing parentheses around multilines JSX] and, as its node, the
    markup element that was flagged: a candidate of the event that the
    predicate flags.  The fix is the one built for that very node, and
    earlier reports are left as they were. *)
Theorem violation_shape context e s s' :
  deliver (create context) e s = Ok () s' →
  reports s' = reports s ++ new_reports s s'
  ∧ Forall (λ v,
      is_Some (v_fix v)
      ∧ v_fix v = Some (fix_ context (v_node v))
      ∧ v_message v = "Missing parentheses around multilines JSX"
      ∧ type (v_node v) = "JSXElement"
      ∧ shouldFlag context (v_node v) = true
      ∧ Some (v_node v) ∈ new_checked s s') (new_reports s s').
Proof.
  intros Hrun. destruct (deliver_evaluates _ _ _ _ Hrun) as [cs Hev].
  pose proof Hev as [_ Hr]. apply evaluates_new in Hev as [-> ->].
  split; [done|]. apply Forall_forall. intros v Hv.
  apply list_elem_of_omap in Hv as (o & Ho & Hflag).
  apply flagged_Some in Hflag as (n & -> & Hflag & ->). simpl.
  pose proof Hflag as (Hty & _)%shouldFlag_true.
  split_and!; eauto.
Qed.

(** The report of [return <a>...</a>;]. *)
Lemma violation_shape_witness :
  deliver (create (Sample.context []))
    (EvReturnStatement Sample.returnStatement) empty_state
  = Ok () {| reports := [violation (Sample.context []) Sample.element];
             checked := [Some Sample.element] |}
  ∧ Forall (λ v,
      is_Some (v_fix v)
      ∧ v_message v = "Missing parentheses around multilines JSX"
      ∧ v_node v = Sample.element)
      [violation (Sample.context []) Sample.element].
Proof.
  assert (deliver (create (Sample.context []))
            (EvReturnStatement Sample.returnStatement) empty_state
          = Ok () {| reports := [violation (Sample.context []) Sample.element];
                     checked := [Some Sample.element] |}) as Hrun
    by reflexivity.
  split; [exact Hrun|].
  destruct (violation_shape _ _ _ _ Hrun) as [_ Hall].
  apply Forall_cons_1 in Hall as [(Hfix & _ & Hmsg & _) _].
  apply Forall_cons. split; [|apply Forall_nil_2].
  split_and!; [exact Hfix | exact Hmsg | reflexivity].
Defined.

(** ** The fix *)

(** *** Strings *)

Lemma length_append a b :
  String.length (a +:+ b) = String.length a + String.length b.
Proof. induction a as [|c a IH]; simpl; [done | by rewrite IH]. Qed.

Lemma length_substring s n m :
  n + m ≤ String.length s → String.length (String.substring n m s) = m.
Proof.
  revert n m. induction s as [|c s IH]; intros [|n] [|m] H; simpl in *;
    try done; try lia.
  - f_equal. apply IH. lia.
  - apply IH. lia.
  - apply IH. lia.
Qed.

Lemma get_ge s i : String.length s ≤ i → String.get i s = None.
Proof.
  revert i. induction s as [|c s IH]; intros [|i]; simpl; try done; try lia.
  intros H. apply IH. lia.
Qed.

Lemma get_append_l a b i :
  i < String.length a → String.get i (a +:+ b) = String.get i a.
Proof. intros H. symmetry. by apply String.append_correct1. Qed.

Lemma get_append_r a b i :
  String.length a ≤ i →
  String.get i (a +:+ b) = String.get (i - String.length a) b.
Proof.
  intros H. rewrite (String.append_correct2 a b (i - String.length a)).
  f_equal. lia.
Qed.

Lemma get_slice from to text i :
  i < to - from →
  String.get i (Host.slice from to text) = String.get (from + i) text.
Proof.
  intros H. unfold Host.slice. rewrite String.substring_correct1 by done.
  f_equal. lia.
Qed.

Lemma get_slice_ge from to text i :
  to - from ≤ i → String.get i (Host.slice from to text) = None.
Proof. intros H. unfold Host.slice. by apply String.substring_correct2. Qed.

Lemma length_slice from to text :
  from ≤ to → to ≤ String.length text →
  String.length (Host.slice from to text) = to - from.
Proof. intros ??. unfold Host.slice. apply length_substring. lia. Qed.

(** *** The edit *)

(** Replacing the characters from [from] to [to] by themselves in
    parentheses: every character keeps its place or moves right past one or
    both parentheses. *)
Lemma applyFix_wrap text from to :
  from ≤ to → to ≤ String.length text →
  let text' :=
    Host.applyFix text
      {| fix_range := (from, to);
         fix_text := "(" +:+ Host.slice from to text +:+ ")" |} in
  String.length text' = String.length text + 2
  ∧ (∀ i, i < from → String.get i text' = String.get i text)
  ∧ String.get from text' = Some "("%char
  ∧ (∀ i, from ≤ i < to → String.get (i + 1) text' = String.get i text)
  ∧ String.get (to + 1) text' = Some ")"%char
  ∧ (∀ i, to ≤ i → String.get (i + 2) text' = String.get i text).
Proof.
  intros Hft Hto. unfold Host.applyFix. cbn [fix_range fix_text fst snd].
  assert (String.length (Host.slice 0 from text) = from) as HA
    by (rewrite length_slice; lia).
  assert (String.length (Host.slice from to text) = to - from) as HM
    by (rewrite length_slice; lia).
  assert (String.length (Host.slice to (String.length text) text)
          = String.length text - to) as HC by (rewrite length_slice; lia).
  assert (String.length ("(" +:+ Host.slice from to text +:+ ")")
          = to - from + 2) as HF
    by (rewrite !length_append, HM; simpl; lia).
  split_and!.
  - rewrite !length_append, HA, HM, HC. simpl. lia.
  - intros i Hi. rewrite get_append_l by lia. rewrite get_slice by lia.
    f_equal.
  - rewrite get_append_r by lia. rewrite HA, Nat.sub_diag. done.
  - intros i Hi. rewrite get_append_r by lia. rewrite HA.
    rewrite get_append_l by lia.
    rewrite get_append_r by (simpl; lia).
    rewrite get_append_l by (simpl; lia).
    rewrite get_slice by (simpl; lia). f_equal. simpl. lia.
  - rewrite get_append_r by lia. rewrite HA.
    rewrite get_append_l by lia.
    rewrite get_append_r by (simpl; lia).
    rewrite get_append_r by (simpl; lia).
    rewrite HM. simpl. replace (to + 1 - from - 1 - (to - from)) with 0 by lia.
    done.
  - intros i Hi. rewrite get_append_r by lia. rewrite HA.
    rewrite get_append_r by lia. rewrite HF.
    destruct (decide (i < String.length text)) as [Hlt|Hge].
    + rewrite get_slice by lia. f_equal. lia.
    + rewrite get_slice_ge by lia. symmetry. apply get_ge. lia.
Qed.

(** C7: the fix of a flagged node is one replacement over the node's own
    range whose text is the node's source text between [(] and [)].  Applied
    to the source, it makes the text two characters longer: [(] stands where
    the node started, the node's characters follow it unchanged, [)] follows
    them, and every character outside the node's range is unchanged, those
    after it two places further. *)
Theorem fix_adds_two_parentheses opts text tokens node v :
  flagged (Host.contextOf opts text tokens) (Some node) = Some v →
  (range node).1 ≤ (range node).2 →
  (range node).2 ≤ String.length text →
  ∃ f, v_fix v = Some f
    ∧ f Host.ruleFixer
      = {| fix_range := range node;
           fix_text :=
             "(" +:+ getText (Host.sourceCodeOf text tokens) node +:+ ")" |}
    ∧ String.length (fix_text (f Host.ruleFixer))
      = String.length (getText (Host.sourceCodeOf text tokens) node) + 2
    ∧ String.length (Host.applyFix text (f Host.ruleFixer))
      = String.length text + 2
    ∧ (∀ i, i < (range node).1 →
         String.get i (Host.applyFix text (f Host.ruleFixer))
         = String.get i text)
    ∧ String.get (range node).1 (Host.applyFix text (f Host.ruleFixer))
      = Some "("%char
    ∧ (∀ i, (range node).1 ≤ i < (range node).2 →
         String.get (i + 1) (Host.applyFix text (f Host.ruleFixer))
         = String.get i text)
    ∧ String.get ((range node).2 + 1)
        (Host.applyFix text (f Host.ruleFixer))
      = Some ")"%char
    ∧ (∀ i, (range node).2 ≤ i →
         String.get (i + 2) (Host.applyFix text (f Host.ruleFixer))
         = String.get i text).
Proof.
  intros Hv Hft Hto.
  apply flagged_Some in Hv as (n & [= <-] & _ & ->).
  exists (fix_ (Host.contextOf opts text tokens) node).
  split; [done|]. split; [done|].
  split.
  { unfold fix_. cbn [Host.ruleFixer replaceText fix_text].
    rewrite !length_append. cbn [String.length Host.contextOf sourceCode].
    lia. }
  destruct (range node) as [from to] eqn:Hr. simpl in Hft, Hto.
  pose proof (applyFix_wrap text from to Hft Hto) as Hwrap.
  unfold fix_. cbn [Host.ruleFixer replaceText Host.contextOf sourceCode
    Host.sourceCodeOf getText]. unfold Host.textOf. rewrite Hr.
  cbn [fst snd]. exact Hwrap.
Qed.

(** The fix of the element of [return <a>...</a>;]; the fixed text reads
    [return (<a>...</a>);]. *)
Lemma fix_adds_two_parentheses_witness :
  flagged (Sample.context []) (Some Sample.element)
    = Some (violation (Sample.context []) Sample.element)
  ∧ (range Sample.element).1 ≤ (range Sample.element).2
  ∧ (range Sample.element).2 ≤ String.length Sample.text
  ∧ ∃ f, v_fix (violation (Sample.context []) Sample.element) = Some f
      ∧ f Host.ruleFixer
        = {| fix_range := (7, 15);
             fix_text := "(<a>" +:+ LF +:+ "</a>)" |}
      ∧ Host.applyFix Sample.text (f Host.ruleFixer)
        = "return (<a>" +:+ LF +:+ "</a>);".
Proof.
  assert ((range Sample.element).1 ≤ (range Sample.element).2) as H1
    by (simpl; lia).
  assert ((range Sample.element).2 ≤ String.length Sample.text) as H2
    by (simpl; lia).
  split_and!; [reflexivity | exact H1 | exact H2 |].
  destruct (fix_adds_two_parentheses [] Sample.text Sample.tokens
              Sample.element _ eq_refl H1 H2) as (f & Hf & Hfix & _).
  exists f. split; [exact Hf|]. injection Hf as <-. split; reflexivity.
Defined.

(** *** The fixed text, checked again

    The fixed text is tokenized afresh by the host.  Nothing is assumed of
    the tokenizer but what any token stream of a text satisfies: the tokens
    follow one another in source order, and each carries the characters of
    the text at its range. *)

Lemma filter_none {A} (P : A → Prop) `{∀ x, Decision (P x)} (l : list A) :
  (∀ x, x ∈ l → ¬ P x) → filter P l = [].
Proof.
  induction l as [|x l IH]; intros Hl; [done|].
  rewrite filter_cons_False by (apply Hl; left).
  apply IH. intros y Hy. apply Hl. by right.
Qed.

Lemma in_order_app l1 l2 :
  Host.in_order (l1 ++ l2) ↔
    Host.in_order l1 ∧ Host.in_order l2
    ∧ ∀ t u, t ∈ l1 → u ∈ l2 → (Token.range t).2 ≤ (Token.range u).1.
Proof.
  induction l1 as [|x l1 IH]; simpl.
  - split; [|tauto]. intros H. split_and!; [done..|].
    intros t u Ht. by apply elem_of_nil in Ht.
  - rewrite Forall_app, IH, !Forall_forall. split.
    + intros ([H1 H2] & H3 & H4 & H5). split_and!; try done.
      intros t u [->|Ht]%elem_of_cons Hu; eauto.
    + intros ([H1 H2] & H3 & H4). split_and!; try done.
      * intros u Hu. apply H4; [left | done].
      * intros t u Ht Hu. apply H4; [by right | done].
Qed.

(** In an ordered stream, a token that starts before the node and reaches
    its start is the token before the node. *)
Lemma tokenBefore_adjacent tokens t node :
  Host.in_order tokens → t ∈ tokens →
  (Token.range t).1 < (range node).1 → (range node).1 ≤ (Token.range t).2 →
  Host.tokenBefore tokens node = Some t.
Proof.
  intros Hord (l1 & l2 & ->)%list_elem_of_split Hs He.
  apply in_order_app in Hord as (_ & [Hl2 _] & _).
  rewrite Forall_forall in Hl2.
  unfold Host.tokenBefore.
  rewrite filter_app, filter_cons_True by done.
  rewrite (filter_none _ l2).
  2:{ intros u Hu. specialize (Hl2 u Hu). lia. }
  apply last_snoc.
Qed.

(** And a token that ends after the node and starts no earlier than the node
    ends is the token after it. *)
Lemma tokenAfter_adjacent tokens t node :
  Host.in_order tokens → t ∈ tokens →
  (range node).2 < (Token.range t).2 → (Token.range t).1 ≤ (range node).2 →
  Host.tokenAfter tokens node = Some t.
Proof.
  intros Hord (l1 & l2 & ->)%list_elem_of_split He Hs.
  apply in_order_app in Hord as (_ & _ & Hl1).
  unfold Host.tokenAfter.
  rewrite filter_app, filter_cons_True by done.
  rewrite (filter_none _ l1).
  2:{ intros u Hu. specialize (Hl1 u t Hu (list_elem_of_here _ _)). lia. }
  done.
Qed.

(** A token of one character carries that character. *)
Lemma spells_one text t p c :
  Host.spells text t → Token.range t = (p, p + 1) →
  String.get p text = Some c →
  Token.value t = String c "".
Proof.
  intros [_ <-] -> Hc. cbn [fst snd]. apply String.get_correct.
  intros [|i].
  - rewrite get_slice by lia. by rewrite Nat.add_0_r.
  - rewrite get_slice_ge by lia. done.
Qed.

(** C6: the fix is idempotent.  Take the fix of a flagged node and apply it
    to the text.  In any token stream of the fixed text in which the
    character now at the node's old start and the character right after the
    node's new end are tokens of their own, the node, which lies one
    character to the right, is parenthesised: those two tokens read [(] and
    [)] because the fix wrote these characters there.  So the node is not
    flagged and checking it reports nothing. *)
Theorem fix_is_idempotent opts text tokens node v f tokens' lp rp node' :
  flagged (Host.contextOf opts text tokens) (Some node) = Some v →
  v_fix v = Some f →
  (range node).1 ≤ (range node).2 →
  (range node).2 ≤ String.length text →
  Host.in_order tokens' →
  Forall (Host.spells (Host.applyFix text (f Host.ruleFixer))) tokens' →
  lp ∈ tokens' →
  Token.range lp = ((range node).1, (range node).1 + 1) →
  rp ∈ tokens' →
  Token.range rp = ((range node).2 + 1, (range node).2 + 2) →
  range node' = ((range node).1 + 1, (range node).2 + 1) →
  truthy
    (isParenthesised
       (Host.contextOf opts (Host.applyFix text (f Host.ruleFixer)) tokens')
       node') = true
  ∧ flagged
      (Host.contextOf opts (Host.applyFix text (f Host.ruleFixer)) tokens')
      (Some node') = None
  ∧ ∀ s,
      check
        (Host.contextOf opts (Host.applyFix text (f Host.ruleFixer)) tokens')
        (Some node') s
      = Ok () {| reports := reports s;
                 checked := checked s ++ [Some node'] |}.
Proof.
  intros Hv Hf Hft Hto Hord Hsp Hlp Hlpr Hrp Hrpr Hr.
  apply flagged_Some in Hv as (n & [= <-] & _ & ->).
  injection Hf as <-.
  rewrite Forall_forall in Hsp.
  set (text' := Host.applyFix text _) in *.
  set (context' := Host.contextOf opts text' tokens').
  destruct (range node) as [from to] eqn:Hrange. cbn [fst snd] in *.
  assert (String.get from text' = Some "("%char
          ∧ String.get (to + 1) text' = Some ")"%char) as [Hopen Hclose].
  { pose proof (applyFix_wrap text from to Hft Hto) as (_ & _ & Ho & _ & Hc & _).
    unfold text', fix_.
    cbn [Host.ruleFixer replaceText Host.contextOf sourceCode
      Host.sourceCodeOf getText].
    unfold Host.textOf. rewrite Hrange. cbn [fst snd]. done. }
  assert (Token.value lp = "(") as Hlpv
    by (eapply spells_one; [by apply Hsp | done | done]).
  assert (Token.value rp = ")") as Hrpv.
  { eapply (spells_one text' rp (to + 1)); [by apply Hsp | | done].
    rewrite Hrpr. f_equal. lia. }
  assert (truthy (isParenthesised context' node') = true) as Hp.
  { unfold isParenthesised, context'.
    cbn [Host.contextOf sourceCode Host.sourceCodeOf getTokenBefore
      getTokenAfter].
    rewrite (tokenBefore_adjacent tokens' lp node')
      by (done || rewrite Hlpr, Hr; simpl; lia).
    rewrite (tokenAfter_adjacent tokens' rp node')
      by (done || rewrite Hrpr, Hr; simpl; lia).
    rewrite Hlpv, Hrpv, Hlpr, Hrpr, Hr. cbn [truthy fst snd].
    rewrite !bool_decide_true by done. rewrite !Nat.leb_refl. done. }
  assert (flagged context' (Some node') = None) as Hnone.
  { simpl. unfold shouldFlag. rewrite Hp. simpl. by rewrite andb_false_r. }
  split_and!; [done..|].
  intros s. rewrite check_run, Hnone. simpl. by rewrite app_nil_r.
Qed.

(** [return <a>...</a>;] is flagged; its fix gives [return (<a>...</a>);],
    where the element is not flagged. *)
Lemma fix_is_idempotent_witness :
  flagged (Sample.context []) (Some Sample.element)
    = Some (violation (Sample.context []) Sample.element)
  ∧ Host.applyFix Sample.text
      (fix_ (Sample.context []) Sample.element Host.ruleFixer)
    = Sample.text_fixed
  ∧ Host.in_order Sample.tokens_fixed
  ∧ Forall (Host.spells Sample.text_fixed) Sample.tokens_fixed
  ∧ flagged (Host.contextOf [] Sample.text_fixed Sample.tokens_fixed)
      (Some Sample.element_fixed) = None.
Proof.
  assert (Host.in_order Sample.tokens_fixed) as Hord.
  { unfold Sample.tokens_fixed.
    repeat match goal with
      | |- _ ∧ _ => split
      | |- Forall _ [] => apply Forall_nil_2
      | |- Forall _ (_ :: _) => apply Forall_cons_2
      | |- Host.in_order _ => cbn [Host.in_order]
      | |- True => exact I
      | |- _ => simpl; lia
      end. }
  assert (Forall (Host.spells Sample.text_fixed) Sample.tokens_fixed) as Hsp.
  { unfold Sample.tokens_fixed, Host.spells.
    repeat match goal with
      | |- _ ∧ _ => split
      | |- Forall _ [] => apply Forall_nil_2
      | |- Forall _ (_ :: _) => apply Forall_cons_2
      | |- _ = _ => reflexivity
      | |- _ => simpl; lia
      end. }
  split_and!; [reflexivity | reflexivity | exact Hord | exact Hsp |].
  assert ((range Sample.element).1 ≤ (range Sample.element).2) as H1
    by (simpl; lia).
  assert ((range Sample.element).2 ≤ String.length Sample.text) as H2
    by (simpl; lia).
  assert (Token.mk "(" (7, 8) ∈ Sample.tokens_fixed) as Hlp
    by (apply list_elem_of_further, list_elem_of_here).
  assert (Token.mk ")" (16, 17) ∈ Sample.tokens_fixed) as Hrp
    by (do 10 apply list_elem_of_further; apply list_elem_of_here).
  destruct (fix_is_idempotent [] Sample.text Sample.tokens Sample.element
              (violation (Sample.context []) Sample.element)
              (fix_ (Sample.context []) Sample.element)
              Sample.tokens_fixed (Token.mk "(" (7, 8))
              (Token.mk ")" (16, 17)) Sample.element_fixed
              eq_refl eq_refl H1 H2 Hord Hsp Hlp eq_refl Hrp eq_refl eq_refl)
    as (_ & Hnone & _).
  exact Hnone.
Defined.

(** The tokens of the samples are token streams of their texts. *)
Example sample_tokens :
  Host.stream Sample.tokens
  ∧ Forall (Host.spells Sample.text) Sample.tokens
  ∧ Host.stream Sample.tokens_fixed
  ∧ Host.stream Ternary.tokens
  ∧ Forall (Host.spells Ternary.text) Ternary.tokens
  ∧ Host.stream Arrow.tokens
  ∧ Forall (Host.spells Arrow.text) Arrow.tokens.
Proof.
  unfold Host.stream, Host.token_ok, Host.spells,
    Sample.tokens, Sample.tokens_fixed, Ternary.tokens, Arrow.tokens.
  repeat match goal with
    | |- _ ∧ _ => split
    | |- Forall _ [] => apply Forall_nil_2
    | |- Forall _ (_ :: _) => apply Forall_cons_2
    | |- Host.in_order _ => cbn [Host.in_order]
    | |- True => exact I
    | |- _ = _ => reflexivity
    | |- _ => simpl; lia
    end.
Qed.

(** * Further properties of the handlers *)

Ltac handlers :=
  unfold VariableDeclarator, AssignmentExpression, ReturnStatement,
    ArrowFunctionExpression_exit, ConditionalExpression, LogicalExpression,
    JSXAttribute.

Lemma isEnabled_without_options context name :
  head (options context) = None →
  isEnabled context name = get_property DEFAULTS name.
Proof. intros H. unfold isEnabled. rewrite H. simpl. by rewrite lookup_empty. Qed.

(** X1: the one way a handler raises.  An event ends in a [TypeError]
    exactly when it is an assignment event with the assignment context on,
    the condition context off and no right-hand side to read the type of, or
    an arrow-function event with the arrow context on and no body.  The five
    other handlers return on every node, whatever it lacks. *)
Theorem handler_raises_iff context e s :
  deliver (create context) e s = TypeError ↔
    match e with
    | EvAssignmentExpression n =>
        truthy (isEnabled context "assignment") = true
        ∧ truthy (isEnabled context "condition") = false
        ∧ right n = None
    | EvArrowFunctionExpression_exit n =>
        truthy (isEnabled context "arrow") = true ∧ body n = None
    | _ => False
    end.
Proof.
  destruct e as [n|n|n|n|n|n|n]; simpl; handlers.
  - destruct (truthy (isEnabled context "declaration")),
      (truthy (isEnabled context "condition")), (init n) as [i|]; run;
      try destruct (bool_decide (type i = "ConditionalExpression")); run;
      rewrite ?check_run; done.
  - destruct (truthy (isEnabled context "assignment")),
      (truthy (isEnabled context "condition")), (right n) as [r|]; run;
      try destruct (bool_decide (type r = "ConditionalExpression")); run;
      rewrite ?check_run; split; try done; intros (? & ? & ?); done.
  - destruct (truthy (isEnabled context "return")); run;
      rewrite ?check_run; done.
  - destruct (truthy (isEnabled context "arrow")), (body n) as [b|]; run;
      try destruct (bool_decide (type b = "BlockStatement")); run;
      rewrite ?check_run; split; try done; intros (? & ?); done.
  - destruct (truthy (isEnabled context "condition")); run;
      rewrite ?check_run; done.
  - destruct (truthy (isEnabled context "logical")); run;
      rewrite ?check_run; done.
  - destruct (truthy (isEnabled context "prop")), (value n) as [a|]; run;
      try destruct (bool_decide (type a = "JSXExpressionContainer")); run;
      rewrite ?check_run; done.
Qed.

(** X2: a handler whose own context is disabled does nothing: it evaluates
    no candidate, reports nothing and reads no child of the node, so it
    returns even on a node that lacks the child it would read. *)
Theorem disabled_handler_does_nothing context e s :
  truthy (isEnabled context (context_name e)) = false →
  deliver (create context) e s = Ok () s.
Proof.
  destruct e as [n|n|n|n|n|n|n]; simpl; handlers; intros ->; run; done.
Qed.

(** With [{assignment: false}] an assignment without a right-hand side is
    passed over. *)
Lemma disabled_handler_does_nothing_witness :
  truthy (isEnabled (Ternary.context [option_object "assignment" false])
            (context_name
               (EvAssignmentExpression
                  (leaf "AssignmentExpression" 4 27 1 2)))) = false
  ∧ deliver (create (Ternary.context [option_object "assignment" false]))
      (EvAssignmentExpression (leaf "AssignmentExpression" 4 27 1 2))
      empty_state
    = Ok () empty_state.
Proof.
  split; [reflexivity|].
  apply (disabled_handler_does_nothing
           (Ternary.context [option_object "assignment" false])
           (EvAssignmentExpression (leaf "AssignmentExpression" 4 27 1 2))).
  reflexivity.
Defined.

(** X3: without an options object, the conditional, logical and attribute
    events do nothing on any node: only declarators, assignments, returns
    and arrow functions are looked at. *)
Theorem default_options_quiet_events context e s :
  head (options context) = None →
  context_name e ∈ ["condition"; "logical"; "prop"] →
  deliver (create context) e s = Ok () s.
Proof.
  intros Hno Hname.
  assert (truthy (isEnabled context (context_name e)) = false) as Hoff.
  { rewrite isEnabled_without_options by done.
    rewrite !elem_of_cons, elem_of_nil in Hname.
    destruct Hname as [->|[->|[->|[]]]]; reflexivity. }
  destruct e as [n|n|n|n|n|n|n]; simpl in *; handlers; rewrite ?Hoff; run;
    try done.
  all: rewrite !elem_of_cons, elem_of_nil in Hname; naive_solver.
Qed.

(** The attribute of [prop={<a>...</a>}] is passed over by default. *)
Lemma default_options_quiet_events_witness :
  head (options (Attribute.context [])) = None
  ∧ context_name (EvJSXAttribute Attribute.attribute)
    ∈ ["condition"; "logical"; "prop"]
  ∧ deliver (create (Attribute.context []))
      (EvJSXAttribute Attribute.attribute) empty_state
    = Ok () empty_state.
Proof.
  assert (context_name (EvJSXAttribute Attribute.attribute)
          ∈ ["condition"; "logical"; "prop"]) as Hin
    by (apply list_elem_of_further, list_elem_of_further, list_elem_of_here).
  split_and!; [reflexivity | exact Hin |].
  apply (default_options_quiet_events (Attribute.context [])
           (EvJSXAttribute Attribute.attribute) empty_state eq_refl Hin).
Defined.

(** X4: with the prop context on, the attribute handler evaluates the
    expression of the attribute's value when the value is an expression
    container, and nothing at all when the attribute has no value or a value
    of another kind, such as a string literal. *)
Theorem attribute_candidate context node s :
  truthy (isEnabled context "prop") = true →
  (∀ c, value node = Some c → type c = "JSXExpressionContainer" →
     ∃ s', JSXAttribute context node s = Ok () s'
       ∧ new_checked s s' = [expression c]
       ∧ new_reports s s' = option_list (flagged context (expression c)))
  ∧ (value node = None
     ∨ (∃ c, value node = Some c ∧ type c ≠ "JSXExpressionContainer") →
     JSXAttribute context node s = Ok () s).
Proof.
  intros Hon. split.
  - intros c Hc Hty. unfold JSXAttribute. rewrite Hon, Hc. run.
    rewrite Hty. simpl. rewrite check_run. eexists. split; [done|].
    split; [by apply new_checked_app | by apply new_reports_app].
  - intros [Hnone|(c & Hc & Hty)]; unfold JSXAttribute.
    + rewrite Hon, Hnone. run. done.
    + rewrite Hon, Hc. run. rewrite bool_decide_false by done. done.
Qed.

(** On [prop={<a>...</a>}] with [{prop: true}] the element in the braces is
    the candidate. *)
Lemma attribute_candidate_witness :
  truthy (isEnabled (Attribute.context [option_object "prop" true]) "prop")
    = true
  ∧ ∃ s', JSXAttribute (Attribute.context [option_object "prop" true])
            Attribute.attribute empty_state = Ok () s'
          ∧ new_checked empty_state s' = [Some Attribute.element].
Proof.
  split; [reflexivity|].
  destruct (attribute_candidate
              (Attribute.context [option_object "prop" true])
              Attribute.attribute empty_state eq_refl) as [Hc _].
  destruct (Hc Attribute.container eq_refl eq_refl) as (s' & Hrun & Hch & _).
  exists s'. split; [exact Hrun | exact Hch].
Defined.

(** X5: with the declaration context on, a declarator whose initializer is
    not a conditional expression, or any declarator when the condition
    context is on, has its initializer evaluated as its one candidate; a
    declarator without initializer is evaluated too, reports nothing and
    raises nothing. *)
Theorem declarator_checks_initializer context node s :
  truthy (isEnabled context "declaration") = true →
  truthy (isEnabled context "condition") = true
  ∨ init node = None
  ∨ (∃ i, init node = Some i ∧ type i ≠ "ConditionalExpression") →
  ∃ s', VariableDeclarator context node s = Ok () s'
    ∧ new_checked s s' = [init node]
    ∧ new_reports s s' = option_list (flagged context (init node))
    ∧ (init node = None → reports s' = reports s).
Proof.
  intros Hon Hcase.
  assert (VariableDeclarator context node s = check context (init node) s)
    as ->.
  { unfold VariableDeclarator. rewrite Hon.
    destruct Hcase as [->|[->|(i & -> & Hty)]]; run; try done.
    - by destruct (truthy (isEnabled context "condition")).
    - destruct (truthy (isEnabled context "condition")); run; [done|].
      rewrite bool_decide_false by done. done. }
  rewrite check_run. eexists. split; [done|].
  split_and!; [by apply new_checked_app | by apply new_reports_app |].
  intros ->. simpl. apply app_nil_r.
Qed.

(** [var x;] has no initializer. *)
Lemma declarator_checks_initializer_witness :
  truthy (isEnabled (Ternary.context []) "declaration") = true
  ∧ init (leaf "VariableDeclarator" 4 5 1 1) = None
  ∧ ∃ s', VariableDeclarator (Ternary.context [])
            (leaf "VariableDeclarator" 4 5 1 1) empty_state = Ok () s'
          ∧ new_checked empty_state s' = [None]
          ∧ reports s' = [].
Proof.
  split_and!; try reflexivity.
  destruct (declarator_checks_initializer (Ternary.context [])
              (leaf "VariableDeclarator" 4 5 1 1) empty_state eq_refl
              (or_intror (or_introl eq_refl)))
    as (s' & Hrun & Hch & _ & Hnone).
  exists s'. split_and!; [exact Hrun | exact Hch | exact (Hnone eq_refl)].
Defined.

(** X6: with the assignment context on, an assignment whose right-hand side
    is not a conditional expression has that side evaluated as its one
    candidate; so has every assignment when the condition context is on, the
    type of the right-hand side not being read then. *)
Theorem assignment_checks_right context node s :
  truthy (isEnabled context "assignment") = true →
  truthy (isEnabled context "condition") = true
  ∨ (∃ r, right node = Some r ∧ type r ≠ "ConditionalExpression") →
  ∃ s', AssignmentExpression context node s = Ok () s'
    ∧ new_checked s s' = [right node]
    ∧ new_reports s s' = option_list (flagged context (right node)).
Proof.
  intros Hon Hcase.
  assert (AssignmentExpression context node s = check context (right node) s)
    as ->.
  { unfold AssignmentExpression. rewrite Hon.
    destruct Hcase as [->|(r & -> & Hty)]; run; [done|].
    destruct (truthy (isEnabled context "condition")); run; [done|].
    rewrite bool_decide_false by done. done. }
  rewrite check_run. eexists. split; [done|].
  split; [by apply new_checked_app | by apply new_reports_app].
Qed.

(** With [{condition: true}] the conditional on the right of the sample
    assignment is the candidate, and is not reported. *)
Lemma assignment_checks_right_witness :
  truthy (isEnabled (Ternary.context [option_object "condition" true])
            "assignment") = true
  ∧ truthy (isEnabled (Ternary.context [option_object "condition" true])
              "condition") = true
  ∧ ∃ s', AssignmentExpression
            (Ternary.context [option_object "condition" true])
            Ternary.assignment empty_state = Ok () s'
          ∧ new_checked empty_state s' = [Some Ternary.conditional]
          ∧ new_reports empty_state s' = [].
Proof.
  split_and!; try reflexivity.
  destruct (assignment_checks_right
              (Ternary.context [option_object "condition" true])
              Ternary.assignment empty_state eq_refl (or_introl eq_refl))
    as (s' & Hrun & Hch & Hr).
  exists s'. split_and!; [exact Hrun | exact Hch | exact Hr].
Defined.

(** ** How the events compose *)

(** X7: a conditional in a declaration or an assignment is visited twice,
    as the initializer or right-hand side and on its own event.  With the
    declaration (or assignment) context on, the two handlers together
    report what the two branches give rise to, each branch once, whether the
    condition context is on or off: off, the first handler evaluates the
    branches and the second does nothing; on, the first evaluates the
    conditional, which is never reported, and the second the branches. *)
Theorem branches_reported_once context node c s :
  type c = "ConditionalExpression" →
  (truthy (isEnabled context "declaration") = true → init node = Some c →
   ∃ s', (VariableDeclarator context node;;
          ConditionalExpression context c) s = Ok () s'
     ∧ new_reports s s'
       = omap (flagged context) [consequent c; alternate c]
     ∧ new_checked s s'
       = (if truthy (isEnabled context "condition") then [Some c] else [])
         ++ [consequent c; alternate c])
  ∧ (truthy (isEnabled context "assignment") = true → right node = Some c →
     ∃ s', (AssignmentExpression context node;;
            ConditionalExpression context c) s = Ok () s'
       ∧ new_reports s s'
         = omap (flagged context) [consequent c; alternate c]
       ∧ new_checked s s'
         = (if truthy (isEnabled context "condition") then [Some c] else [])
           ++ [consequent c; alternate c]).
Proof.
  intros Hty.
  assert (flagged context (Some c) = None) as Hc
    by (apply flagged_skips; right; exists c; by rewrite Hty).
  split; intros Hon Hnode.
  - unfold VariableDeclarator, ConditionalExpression. rewrite Hon, Hnode.
    destruct (truthy (isEnabled context "condition")); run;
      rewrite ?Hty; simpl; rewrite !check_run; simpl; rewrite ?Hc; simpl;
      eexists; (split; [done|]);
      (split; [apply new_reports_app | apply new_checked_app]); simpl;
      rewrite <- ?(assoc_L (++)); simpl; rewrite ?app_nil_r;
      repeat match goal with |- context [flagged ?x ?o] =>
        destruct (flagged x o) end; done.
  - unfold AssignmentExpression, ConditionalExpression. rewrite Hon, Hnode.
    destruct (truthy (isEnabled context "condition")); run;
      rewrite ?Hty; simpl; rewrite !check_run; simpl; rewrite ?Hc; simpl;
      eexists; (split; [done|]);
      (split; [apply new_reports_app | apply new_checked_app]); simpl;
      rewrite <- ?(assoc_L (++)); simpl; rewrite ?app_nil_r;
      repeat match goal with |- context [flagged ?x ?o] =>
        destruct (flagged x o) end; done.
Qed.

(** On [var x = c ? <a>...</a> : <b/>;] the element of two lines is reported
    once with the condition context on, as it is with it off. *)
Lemma branches_reported_once_witness :
  type Ternary.conditional = "ConditionalExpression"
  ∧ truthy (isEnabled (Ternary.context [option_object "condition" true])
              "declaration") = true
  ∧ init Ternary.declarator = Some Ternary.conditional
  ∧ ∃ s', (VariableDeclarator
             (Ternary.context [option_object "condition" true])
             Ternary.declarator;;
           ConditionalExpression
             (Ternary.context [option_object "condition" true])
             Ternary.conditional) empty_state = Ok () s'
          ∧ new_reports empty_state s'
            = [violation (Ternary.context [option_object "condition" true])
                 Ternary.yes].
Proof.
  split_and!; try reflexivity.
  destruct (branches_reported_once
              (Ternary.context [option_object "condition" true])
              Ternary.declarator Ternary.conditional empty_state eq_refl)
    as [Hdecl _].
  destruct (Hdecl eq_refl eq_refl) as (s' & Hrun & Hr & _).
  exists s'. split; [exact Hrun | exact Hr].
Defined.

Ltac settle_bound :=
  intros [= <-];
  first
    [ exists []; split; [apply evaluates_nil | simpl; lia]
    | eexists; split;
      [ split; simpl; rewrite <- ?(assoc_L (++)); simpl;
        [ reflexivity
        | simpl; repeat match goal with |- context [flagged ?c ?o] =>
            destruct (flagged c o) end; simpl; rewrite ?app_nil_r;
          reflexivity ]
      | simpl; lia ] ].

Lemma deliver_candidates context e s s' :
  deliver (create context) e s = Ok () s' →
  ∃ cs, evaluates context cs s s'
    ∧ length cs ≤ match e with
                  | EvVariableDeclarator _ | EvAssignmentExpression _
                  | EvConditionalExpression _ => 2
                  | _ => 1
                  end.
Proof.
  destruct e as [n|n|n|n|n|n|n]; simpl; handlers.
  - destruct (truthy (isEnabled context "declaration")),
      (truthy (isEnabled context "condition")), (init n) as [i|]; run;
      try destruct (bool_decide (type i = "ConditionalExpression")); run;
      rewrite ?check_run; settle_bound.
  - destruct (truthy (isEnabled context "assignment")),
      (truthy (isEnabled context "condition")), (right n) as [i|]; run;
      try destruct (bool_decide (type i = "ConditionalExpression")); run;
      rewrite ?check_run; try discriminate; settle_bound.
  - destruct (truthy (isEnabled context "return")); run;
      rewrite ?check_run; settle_bound.
  - destruct (truthy (isEnabled context "arrow")), (body n) as [b|]; run;
      try destruct (bool_decide (type b = "BlockStatement")); run;
      rewrite ?check_run; try discriminate; settle_bound.
  - destruct (truthy (isEnabled context "condition")); run;
      rewrite ?check_run; settle_bound.
  - destruct (truthy (isEnabled context "logical")); run;
      rewrite ?check_run; settle_bound.
  - destruct (truthy (isEnabled context "prop")), (value n) as [a|]; run;
      try destruct (bool_decide (type a = "JSXExpressionContainer")); run;
      rewrite ?check_run; settle_bound.
Qed.

Lemma length_omap_le {A B} (f : A → option B) (l : list A) :
  length (omap f l) ≤ length l.
Proof.
  induction l as [|x l IH]; [done|]. csimpl. destruct (f x); simpl; lia.
Qed.

(** X8: an event has at most two candidates evaluated, a return,
    arrow-function, logical or attribute event at most one, and it adds at
    most one report per candidate: never more than two reports, and never
    more than one outside declarators, assignments and conditionals. *)
Theorem reports_at_most_two context e s s' :
  deliver (create context) e s = Ok () s' →
  length (new_reports s s') ≤ length (new_checked s s')
  ∧ length (new_checked s s') ≤ match e with
                                | EvVariableDeclarator _
                                | EvAssignmentExpression _
                                | EvConditionalExpression _ => 2
                                | _ => 1
                                end.
Proof.
  intros Hrun. destruct (deliver_candidates _ _ _ _ Hrun) as (cs & Hev & Hle).
  apply evaluates_new in Hev as [-> ->].
  split; [apply length_omap_le | exact Hle].
Qed.

(** The event of [return <a>...</a>;] has one candidate and one report. *)
Lemma reports_at_most_two_witness :
  deliver (create (Sample.context []))
    (EvReturnStatement Sample.returnStatement) empty_state
  = Ok () {| reports := [violation (Sample.context []) Sample.element];
             checked := [Some Sample.element] |}
  ∧ length [violation (Sample.context []) Sample.element] ≤ 1.
Proof.
  assert (deliver (create (Sample.context []))
            (EvReturnStatement Sample.returnStatement) empty_state
          = Ok () {| reports := [violation (Sample.context []) Sample.element];
                     checked := [Some Sample.element] |}) as Hrun
    by reflexivity.
  split; [exact Hrun|].
  destruct (reports_at_most_two _ _ _ _ Hrun) as [Hle Hone].
  exact (Nat.le_trans _ _ _ Hle Hone).
Defined.

(** ** What the options can and cannot change *)

(** Whether a candidate is flagged, and the report made of it, depend on the
    source code object only. *)
Lemma flagged_same_source context1 context2 o :
  sourceCode context1 = sourceCode context2 →
  flagged context1 o = flagged context2 o.
Proof.
  destruct context1 as [o1 sc1], context2 as [o2 sc2]. simpl. intros ->.
  reflexivity.
Qed.

(** X9: the options reach an event only through the truthiness of
    [isEnabled] for the event's own context and for the condition context.
    Two configurations that agree on those two, over the same source, handle
    the event alike, down to the reports and their fixes; a truthy value that
    is not [true] acts as [true]. *)
Theorem options_only_through_isEnabled context1 context2 e s :
  sourceCode context1 = sourceCode context2 →
  truthy (isEnabled context1 (context_name e))
    = truthy (isEnabled context2 (context_name e)) →
  truthy (isEnabled context1 "condition")
    = truthy (isEnabled context2 "condition") →
  deliver (create context1) e s = deliver (create context2) e s.
Proof.
  intros Hsc Hown Hcond.
  pose proof (λ o, flagged_same_source context1 context2 o Hsc) as Hfl.
  destruct e as [n|n|n|n|n|n|n]; simpl in *; handlers;
    rewrite ?Hown, ?Hcond.
  - destruct (truthy (isEnabled context2 "declaration")),
      (truthy (isEnabled context2 "condition")), (init n) as [i|]; run;
      try destruct (bool_decide (type i = "ConditionalExpression")); run;
      rewrite ?check_run, ?Hfl; done.
  - destruct (truthy (isEnabled context2 "assignment")),
      (truthy (isEnabled context2 "condition")), (right n) as [i|]; run;
      try destruct (bool_decide (type i = "ConditionalExpression")); run;
      rewrite ?check_run, ?Hfl; done.
  - destruct (truthy (isEnabled context2 "return")); run;
      rewrite ?check_run, ?Hfl; done.
  - destruct (truthy (isEnabled context2 "arrow")), (body n) as [b|]; run;
      try destruct (bool_decide (type b = "BlockStatement")); run;
      rewrite ?check_run, ?Hfl; done.
  - destruct (truthy (isEnabled context2 "condition")); run;
      rewrite ?check_run, ?Hfl; done.
  - destruct (truthy (isEnabled context2 "logical")); run;
      rewrite ?check_run, ?Hfl; done.
  - destruct (truthy (isEnabled context2 "prop")), (value n) as [a|]; run;
      try destruct (bool_decide (type a = "JSXExpressionContainer")); run;
      rewrite ?check_run, ?Hfl; done.
Qed.

(** [{return: 1}] handles [return <a>...</a>;] as the default options do. *)
Lemma options_only_through_isEnabled_witness :
  sourceCode (Sample.context [])
    = sourceCode (Sample.context [{[ "return" := VNum 1 ]}])
  ∧ truthy (isEnabled (Sample.context []) "return")
    = truthy (isEnabled (Sample.context [{[ "return" := VNum 1 ]}]) "return")
  ∧ truthy (isEnabled (Sample.context []) "condition")
    = truthy (isEnabled (Sample.context [{[ "return" := VNum 1 ]}])
                "condition")
  ∧ deliver (create (Sample.context []))
      (EvReturnStatement Sample.returnStatement) empty_state
    = deliver (create (Sample.context [{[ "return" := VNum 1 ]}]))
        (EvReturnStatement Sample.returnStatement) empty_state.
Proof.
  split_and!; [reflexivity | reflexivity | reflexivity |].
  apply (options_only_through_isEnabled (Sample.context [])
           (Sample.context [{[ "return" := VNum 1 ]}])
           (EvReturnStatement Sample.returnStatement) empty_state);
    reflexivity.
Defined.

Lemma properties_have_defaults k ty :
  properties schema !! k = Some ty →
  ty = "boolean" ∧ ∃ b, get_property DEFAULTS k = VBool b
                        ∧ DEFAULTS !! k = Some (VBool b).
Proof.
  intros Hk. apply elem_of_list_to_map_2 in Hk.
  rewrite !elem_of_cons, elem_of_nil in Hk.
  destruct Hk as [[= -> ->]|[[= -> ->]|[[= -> ->]|[[= -> ->]|[[= -> ->]|
    [[= -> ->]|[[= -> ->]|[]]]]]]]]; (split; [done|]); eexists;
    split; reflexivity.
Qed.

(** X10: under options the rule's schema accepts, [isEnabled] yields, for
    every name the schema lists, a boolean, or else [undefined], and this
    only when the options object itself holds [undefined] under that name:
    the entry is returned as it is, so that the context is off whatever its
    default.  Every key under which the user set a value is a key of
    [DEFAULTS], so each such entry overrides a default. *)
Theorem isEnabled_under_schema context name ty :
  (∀ o, head (options context) = Some o → accepts schema o) →
  properties schema !! name = Some ty →
  ((∃ b, isEnabled context name = VBool b)
   ∨ (isEnabled context name = VUndefined
      ∧ truthy (isEnabled context name) = false
      ∧ ∃ o, head (options context) = Some o ∧ o !! name = Some VUndefined))
  ∧ (∀ o k v, head (options context) = Some o → o !! k = Some v →
       v ≠ VUndefined → is_Some (DEFAULTS !! k)).
Proof.
  intros Hacc Hname. split.
  - unfold isEnabled. destruct (head (options context)) as [o|] eqn:Ho; simpl.
    + destruct (o !! name) as [v|] eqn:Hv.
      * pose proof (Hacc o eq_refl name v Hv) as Hty. cbv beta in Hty.
        destruct Hty as [->|Hty]; [right; eauto|].
        rewrite Hname in Hty.
        apply properties_have_defaults in Hname as [-> _].
        destruct v; simpl in Hty; try done. left. by eexists.
      * apply properties_have_defaults in Hname as (_ & b & -> & _).
        left. by eexists.
    + rewrite lookup_empty.
      apply properties_have_defaults in Hname as (_ & b & -> & _).
      left. by eexists.
  - intros o k v Ho Hv Hdef. pose proof (Hacc o Ho k v Hv) as Hty.
    cbv beta in Hty. destruct Hty as [->|Hty]; [done|].
    destruct (properties schema !! k) as [ty'|] eqn:Hk.
    + apply properties_have_defaults in Hk as (_ & b & _ & ->). by eexists.
    + done.
Qed.

(** [{declaration: undefined}] is accepted, and switches the declaration
    context off although its default is [true]. *)
Lemma isEnabled_under_schema_witness :
  (∀ o, head (options (Sample.context [{[ "declaration" := VUndefined ]}]))
          = Some o → accepts schema o)
  ∧ properties schema !! "declaration" = Some "boolean"
  ∧ isEnabled (Sample.context [{[ "declaration" := VUndefined ]}])
      "declaration" = VUndefined
  ∧ ((∃ b, isEnabled (Sample.context [{[ "declaration" := VUndefined ]}])
             "declaration" = VBool b)
     ∨ (isEnabled (Sample.context [{[ "declaration" := VUndefined ]}])
          "declaration" = VUndefined
        ∧ truthy
            (isEnabled (Sample.context [{[ "declaration" := VUndefined ]}])
               "declaration") = false
        ∧ ∃ o, head (options
                       (Sample.context [{[ "declaration" := VUndefined ]}]))
                 = Some o
               ∧ o !! "declaration" = Some VUndefined)).
Proof.
  assert (∀ o,
    head (options (Sample.context [{[ "declaration" := VUndefined ]}]))
      = Some o → accepts schema o) as Hacc.
  { intros o [= <-]. apply map_Forall_singleton. by left. }
  split_and!; [exact Hacc | reflexivity | reflexivity |].
  exact (proj1 (isEnabled_under_schema
                  (Sample.context [{[ "declaration" := VUndefined ]}])
                  "declaration" "boolean" Hacc eq_refl)).
Defined.

(** ** The text of the fix *)

Lemma substring_prefix a b :
  String.substring 0 (String.length a) (a +:+ b) = a.
Proof.
  induction a as [|c a IH]; simpl; [by destruct b | by rewrite IH].
Qed.

(** X11: whatever the fixer, the fix hands it the node itself and one text,
    from which the node's source text is read back unchanged: the text is
    two characters longer, opens with [(], closes with [)], and the
    characters between them are those [getText] returned, in order, so that
    nothing inside the node (spaces, line breaks, comments) is altered. *)
Theorem fix_text_round_trip context node :
  ∃ t,
    (∀ fixer, fix_ context node fixer = replaceText fixer node t)
    ∧ String.length t
      = String.length (getText (sourceCode context) node) + 2
    ∧ String.get 0 t = Some "("%char
    ∧ String.get (String.length t - 1) t = Some ")"%char
    ∧ Host.slice 1 (String.length t - 1) t
      = getText (sourceCode context) node.
Proof.
  exists ("(" +:+ getText (sourceCode context) node +:+ ")").
  set (g := getText (sourceCode context) node).
  assert (String.length ("(" +:+ g +:+ ")") = String.length g + 2) as Hlen
    by (rewrite !length_append; simpl; lia).
  split_and!; [done | done | done | |].
  - rewrite Hlen. rewrite get_append_r by (simpl; lia).
    rewrite get_append_r by (simpl; lia). simpl.
    replace (String.length g + 2 - 1 - 1 - String.length g) with 0 by lia.
    done.
  - unfold Host.slice. rewrite Hlen.
    replace (String.length g + 2 - 1 - 1) with (String.length g) by lia.
    change ("(" +:+ g +:+ ")") with (String "(" (g +:+ ")")).
    cbn [String.substring]. apply substring_prefix.
Qed.

(** ** Nothing flagged is dropped *)

(** X12: a handler that returns has reported every candidate it evaluated
    that is a markup element of several lines without parentheses: the
    report on that node, with its fix, is among the event's reports. *)
Theorem flagged_candidates_are_reported context e s s' n :
  deliver (create context) e s = Ok () s' →
  Some n ∈ new_checked s s' →
  shouldFlag context n = true →
  violation context n ∈ new_reports s s'.
Proof.
  intros Hrun Hin Hflag.
  destruct (deliver_evaluates _ _ _ _ Hrun) as [cs Hev].
  apply evaluates_new in Hev as [Hc Hr]. rewrite Hr. rewrite Hc in Hin.
  apply list_elem_of_omap. exists (Some n). split; [done|].
  simpl. by rewrite Hflag.
Qed.

(** The element of [() => <a>...</a>] is evaluated, flagged and reported. *)
Lemma flagged_candidates_are_reported_witness :
  deliver (create (Arrow.context []))
    (EvArrowFunctionExpression_exit Arrow.arrow) empty_state
  = Ok () {| reports := [violation (Arrow.context []) Arrow.element];
             checked := [Some Arrow.element] |}
  ∧ shouldFlag (Arrow.context []) Arrow.element = true
  ∧ violation (Arrow.context []) Arrow.element
    ∈ [violation (Arrow.context []) Arrow.element].
Proof.
  assert (deliver (create (Arrow.context []))
            (EvArrowFunctionExpression_exit Arrow.arrow) empty_state
          = Ok () {| reports := [violation (Arrow.context []) Arrow.element];
                     checked := [Some Arrow.element] |}) as Hrun
    by reflexivity.
  split_and!; [exact Hrun | reflexivity |].
  apply (flagged_candidates_are_reported _ _ _ _ Arrow.element Hrun);
    [apply list_elem_of_here | reflexivity].
Defined.
